(** * Inference clients of the biodiversity model trainer

    A shallow embedding of [src/bio/model/__init__.py]: the class
    [FastAPIBaseModel] and its two specialisations [YOLOv5] and [KClassify].

    Python values that travel through the code (the decoded JSON document,
    the result items, the byte stream handed to [requests.post]) are modelled
    by inductive types; exceptions by a [result] type; the client object, the
    image handles and the outbound requests by an explicit state that every
    method threads through a small state-and-exception monad.  The libraries
    the code calls ([PIL.Image], [requests]) are a record of oracles, so every
    statement below holds whatever the file system and the remote service
    do. *)

From Stdlib Require Import List String Ascii Bool Arith ZArith QArith Lia.
From Stdlib Require Import Permutation Sorted.
Import ListNotations.

Close Scope Q_scope.
Local Open Scope string_scope.
Local Open Scope list_scope.

(** ** Python values and exceptions *)

(** The exceptions that can leave the modelled code.  [KeyError],
    [TypeError] and [AttributeError] are Python's own.  The other four stand
    for what the libraries raise: [TransportError] for [requests.post]
    failing to complete the call, [DecodeError] for [response.json()] on a
    body that is not JSON, [ImageLoadError] for [Image.open],
    [ImageSaveError] for [image.save]. *)
Inductive exn : Type :=
| KeyError
| TypeError
| AttributeError
| TransportError
| DecodeError
| ImageLoadError
| ImageSaveError.

Inductive result (A : Type) : Type :=
| Ok (a : A)
| Err (e : exn).

Arguments Ok {A} a.
Arguments Err {A} e.

Definition rbind {A B} (r : result A) (k : A -> result B) : result B :=
  match r with
  | Ok a => k a
  | Err e => Err e
  end.

(** A decoded JSON document as Python holds it.  Numbers are the rationals
    they denote: every finite [float] and every [int] is one, and Python
    compares the two kinds exactly, so [Qle_bool] is Python's [<=] on them.
    The non-finite floats ([nan], [inf]) are outside the model.  A [dict] is
    its list of entries in insertion order. *)
#[warnings="-register-all"]
Inductive pyval : Type :=
| PNone
| PBool (b : bool)
| PNum (q : Q)
| PStr (s : string)
| PList (l : list pyval)
| PDict (kvs : list (string * pyval)).

Fixpoint dict_get (kvs : list (string * pyval)) (k : string) : option pyval :=
  match kvs with
  | [] => None
  | (k', v) :: rest => if String.eqb k' k then Some v else dict_get rest k
  end.

(** [v[k]] for a string key [k]: only a [dict] can be subscripted by a
    string; a missing key is a [KeyError], any other receiver a
    [TypeError]. *)
Definition getitem (v : pyval) (k : string) : result pyval :=
  match v with
  | PDict kvs =>
      match dict_get kvs k with
      | Some x => Ok x
      | None => Err KeyError
      end
  | _ => Err TypeError
  end.

Fixpoint chars (s : string) : list pyval :=
  match s with
  | EmptyString => []
  | String c rest => PStr (String c EmptyString) :: chars rest
  end.

(** The values a [for] clause draws from [v]: the elements of a list, the
    keys of a dict, the characters of a string; anything else is not
    iterable. *)
Definition iterate (v : pyval) : result (list pyval) :=
  match v with
  | PList l => Ok l
  | PDict kvs => Ok (map (fun kv => PStr (fst kv)) kvs)
  | PStr s => Ok (chars s)
  | _ => Err TypeError
  end.

(** The number a value stands for in an order comparison with a number:
    [bool] is a subclass of [int] ([True] is 1); comparing any other kind of
    value with a number raises [TypeError]. *)
Definition as_num (v : pyval) : result Q :=
  match v with
  | PNum q => Ok q
  | PBool b => Ok (if b then 1%Q else 0%Q)
  | _ => Err TypeError
  end.

(** [v >= t] for a numeric threshold [t]. *)
Definition py_ge (v : pyval) (t : Q) : result bool :=
  rbind (as_num v) (fun q => Ok (Qle_bool t q)).

(** [s.endswith(suffix)]. *)
Definition endswith (s suffix : string) : bool :=
  (String.length suffix <=? String.length s)%nat
  && String.eqb
       (substring (String.length s - String.length suffix)
                  (String.length suffix) s)
       suffix.

(** [l[:stop]] for an integer [stop]: a negative [stop] counts from the end
    of the list, and both ends are clamped to the list. *)
Definition slice_to {A} (l : list A) (stop : Z) : list A :=
  if (0 <=? stop)%Z
  then firstn (Z.to_nat stop) l
  else firstn (Z.to_nat (Z.of_nat (List.length l) + stop)) l.

(** ** Filtering and sorting, as the list expressions of the code *)

(** The condition of the comprehensions on lines 60 and 82,
    [result[key] >= threshold]. *)
Definition keep (key : string) (threshold : Q) (item : pyval) : result bool :=
  rbind (getitem item key) (fun v => py_ge v threshold).

(** [[result for result in items if result[key] >= threshold]]: the items
    are visited in order, and the first one whose condition raises ends the
    comprehension with that exception. *)
Fixpoint comprehension (key : string) (threshold : Q) (items : list pyval)
  : result (list pyval) :=
  match items with
  | [] => Ok []
  | item :: rest =>
      rbind (keep key threshold item) (fun b =>
      rbind (comprehension key threshold rest) (fun kept =>
      Ok (if b then item :: kept else kept)))
  end.

Fixpoint mapM {A B} (f : A -> result B) (l : list A) : result (list B) :=
  match l with
  | [] => Ok []
  | a :: rest =>
      rbind (f a) (fun b =>
      rbind (mapM f rest) (fun bs => Ok (b :: bs)))
  end.

(** The sort key of line 85, [lambda k: k['score']], read as a number. *)
Definition sort_key (key : string) (item : pyval) : result Q :=
  rbind (getitem item key) as_num.

(** Insertion into a list already in descending key order.  The new entry
    comes from an earlier position of the input than every entry of [l], and
    is placed before the first entry whose key is not greater than its own,
    so entries with equal keys stay in input order. *)
Fixpoint insert_desc {A} (x : Q * A) (l : list (Q * A)) : list (Q * A) :=
  match l with
  | [] => [x]
  | y :: rest =>
      if Qle_bool (fst y) (fst x) then x :: l else y :: insert_desc x rest
  end.

Definition sort_desc {A} (l : list (Q * A)) : list (Q * A) :=
  fold_right insert_desc [] l.

(** The pair Python sorts: an item with its key. *)
Definition decorate (key : string) (item : pyval) : result (Q * pyval) :=
  rbind (sort_key key item) (fun k => Ok (k, item)).

(** [sorted(items, key=lambda k: k[key], reverse=True)].  Python computes
    the key of every item first, in order, then sorts the items by key;
    [sorted] is stable, and with [reverse=True] items with equal keys still
    keep their original order.  A stable sort has one possible outcome
    (lemma [sorted_desc_unique] below), so the insertion sort above returns
    the list Python returns.  Keys are
    compared as numbers: a key that is not a number makes this model raise
    [TypeError]; no such key reaches line 85, since line 82 has already
    compared every remaining score with the threshold (lemma
    [comprehension_scored] below). *)
Definition sorted_desc (key : string) (items : list pyval)
  : result (list pyval) :=
  rbind (mapM (decorate key) items) (fun d => Ok (map snd (sort_desc d))).

(** ** The world outside the module, and the state it shares with it *)

(** What is handed to [requests.post] as the uploaded file, or to a method
    as a positional argument: a byte string, an [io.BytesIO] stream with its
    cursor, or a number. *)
Inductive pyobj : Type :=
| OBytes (data : list Byte.byte)
| OBytesIO (buf : list Byte.byte) (pos : nat)
| OFloat (q : Q).

(** An image opened by [Image.open]. *)
Definition image := nat.

(** The response object of [requests]: the code only calls [json()] on
    it. *)
Record Response : Type := { Response_json : result pyval }.

(** The libraries the module calls.  [requests_post url files] receives the
    [files] list of line 41. *)
Record World : Type := {
  Image_open : string -> result image;
  Image_save_jpeg : image -> result (list Byte.byte);
  requests_post : string -> list (string * pyobj) -> result Response
}.

(** What an observer of a run can see. *)
Inductive event : Type :=
| EvInfo (msg : string)
| EvDebug (v : pyval)
| EvOpen (h : image)
| EvClose (h : image)
| EvPost (url : string) (files : list (string * pyobj)).

(** The client object has one attribute, [endpoint]; [None] before
    [__init__] has assigned it. *)
Record state : Type := {
  self_endpoint : option string;
  trace : list event
}.

Definition M (A : Type) : Type := state -> result A * state.

Definition ret {A} (a : A) : M A := fun s => (Ok a, s).

Definition raise {A} (e : exn) : M A := fun s => (Err e, s).

Definition bind {A B} (m : M A) (k : A -> M B) : M B :=
  fun s =>
    match m s with
    | (Ok a, s') => k a s'
    | (Err e, s') => (Err e, s')
    end.

Definition lift {A} (r : result A) : M A := fun s => (r, s).

Definition emit (e : event) : M unit :=
  fun s => (Ok tt, {| self_endpoint := self_endpoint s;
                      trace := trace s ++ [e] |}).

Definition set_endpoint (e : string) : M unit :=
  fun s => (Ok tt, {| self_endpoint := Some e; trace := trace s |}).

(** Reading [self.endpoint]. *)
Definition get_endpoint : M string :=
  fun s =>
    match self_endpoint s with
    | Some e => (Ok e, s)
    | None => (Err AttributeError, s)
    end.

Declare Scope py_scope.
Delimit Scope py_scope with py.
Notation "x <- m ;; k" := (bind m (fun x => k))
  (at level 61, m at next level, right associativity) : py_scope.
Notation "m ;;; k" := (bind m (fun _ => k))
  (at level 61, right associativity) : py_scope.
Local Open Scope py_scope.

(** Modelled from the spec: [bio.logger] is not under [src/]; section 9
    calls its [info] and [debug] logging calls, so each records its message
    and returns. *)
Definition info (msg : string) : M unit := emit (EvInfo msg).

Definition debug (v : pyval) : M unit := emit (EvDebug v).

(** The handles a trace opens, the handles it closes and the requests it
    sends, each in order. *)
Fixpoint opens (tr : list event) : list image :=
  match tr with
  | [] => []
  | EvOpen h :: rest => h :: opens rest
  | _ :: rest => opens rest
  end.

Fixpoint closes (tr : list event) : list image :=
  match tr with
  | [] => []
  | EvClose h :: rest => h :: closes rest
  | _ :: rest => closes rest
  end.

Fixpoint posts (tr : list event) : list (string * list (string * pyobj)) :=
  match tr with
  | [] => []
  | EvPost url files :: rest => (url, files) :: posts rest
  | _ :: rest => posts rest
  end.

(** ** The classes *)

Section Classes.

Variable W : World.

(** [Image.open(path)], [image.save(byte_io, format='JPEG')] into a fresh
    [io.BytesIO], [byte_io.seek(0)] and [image.close()]. *)
Definition PIL_open (path : string) : M image :=
  h <- lift (Image_open W path) ;;
  emit (EvOpen h) ;;;
  ret h.

Definition PIL_save_jpeg (h : image) : M pyobj :=
  data <- lift (Image_save_jpeg W h) ;;
  ret (OBytesIO data (List.length data)).

Definition seek0 (o : pyobj) : pyobj :=
  match o with
  | OBytesIO buf _ => OBytesIO buf 0
  | _ => o
  end.

Definition PIL_close (h : image) : M unit := emit (EvClose h).

(** [post(url, files=files)]: one outbound call, recorded whether or not it
    completes. *)
Definition post (url : string) (files : list (string * pyobj)) : M Response :=
  emit (EvPost url files) ;;;
  lift (requests_post W url files).

(** [FastAPIBaseModel.__init__], lines 24-33. *)
Definition normalize (endpoint : string) : string :=
  if negb (endswith endpoint "/") then endpoint ++ "/" else endpoint.

Definition FastAPIBaseModel_init (endpoint : string) : M unit :=
  let endpoint := normalize endpoint in
  info ("Initializing FastAPIBaseModel with endpoint: " ++ endpoint) ;;;
  set_endpoint endpoint.

(** [FastAPIBaseModel.predict_bytes], lines 35-42, called with the
    positional arguments [args] after [self].  The method declares one
    parameter, [image_bytes]; Python raises [TypeError] for any other number
    of positional arguments, before the body runs. *)
Definition FastAPIBaseModel_predict_bytes (args : list pyobj) : M pyval :=
  match args with
  | [image_bytes] =>
      endpoint <- get_endpoint ;;
      response <- post endpoint [("file", image_bytes)] ;;
      lift (Response_json response)
  | _ => raise TypeError
  end.

(** [YOLOv5.__init__] and [KClassify.__init__] only call the base one. *)
Definition YOLOv5_init (endpoint : string) : M unit :=
  FastAPIBaseModel_init endpoint.

Definition KClassify_init (endpoint : string) : M unit :=
  FastAPIBaseModel_init endpoint.

(** [YOLOv5.predict_file], lines 50-62. *)
Definition YOLOv5_predict_file (image_path : string) (threshold : Q)
  : M (list pyval) :=
  image <- PIL_open image_path ;;
  byte_io <- PIL_save_jpeg image ;;
  let byte_io := seek0 byte_io in
  results <- FastAPIBaseModel_predict_bytes [byte_io; OFloat threshold] ;;
  PIL_close image ;;;
  items <- lift (rbind (getitem results "result") iterate) ;;
  results <- lift (comprehension "confidence" threshold items) ;;
  ret results.

(** [KClassify.predict_bytes], lines 71-90. *)
Definition KClassify_predict_bytes (image_bytes : pyobj) (threshold : Q)
    (top_n : Z) : M (list pyval) :=
  results <- FastAPIBaseModel_predict_bytes [image_bytes] ;;
  debug results ;;;
  items <- lift (rbind (getitem results "result") iterate) ;;
  results <- lift (comprehension "score" threshold items) ;;
  results <- lift (sorted_desc "score" results) ;;
  let results := slice_to results top_n in
  ret results.

(** [KClassify.predict_file], lines 92-106. *)
Definition KClassify_predict_file (image_path : string) (threshold : Q)
    (top_n : Z) : M (list pyval) :=
  image <- PIL_open image_path ;;
  byte_io <- PIL_save_jpeg image ;;
  let byte_io := seek0 byte_io in
  results <- KClassify_predict_bytes byte_io threshold top_n ;;
  PIL_close image ;;;
  ret results.

End Classes.

(** ** The vocabulary of the properties *)

(** A result item for the field [key]: a record whose [key] field is a
    number. *)
Definition scored (key : string) (item : pyval) : Prop :=
  exists q, sort_key key item = Ok q.

(** The item's [key] field is a number at least [t]. *)
Definition score_ge (key : string) (t : Q) (item : pyval) : bool :=
  match sort_key key item with
  | Ok q => Qle_bool t q
  | Err _ => false
  end.

(** The item's [key] field is a number equal to [q]. *)
Definition same_score (key : string) (q : Q) (item : pyval) : bool :=
  match sort_key key item with
  | Ok q' => Qeq_bool q' q
  | Err _ => false
  end.

(** [a] may stand before [b] in a list in descending order of [key]. *)
Definition ge_by (key : string) (a b : pyval) : Prop :=
  exists qa qb,
    sort_key key a = Ok qa /\ sort_key key b = Ok qb /\ (qb <= qa)%Q.

(** Every item is at least as large as every later one. *)
Definition descending (key : string) (l : list pyval) : Prop :=
  StronglySorted (ge_by key) l.

(** The order and the ties of the decorated entries that [sort_desc]
    arranges. *)
Definition key_geq {A} (x y : Q * A) : Prop := (fst y <= fst x)%Q.

Definition key_tie {A} (q : Q) (x : Q * A) : bool := Qeq_bool (fst x) q.

(** A decorated entry carries the key of its own item. *)
Definition decorated (key : string) (p : Q * pyval) : Prop :=
  sort_key key (snd p) = Ok (fst p).

(** The two steps of the result post-processor as [KClassify.predict_bytes]
    performs them: line 82, then lines 85 and 88. *)
Definition filter_step (results : list pyval) (threshold : Q)
  : result (list pyval) :=
  comprehension "score" threshold results.

Definition rank (results : list pyval) (top_n : Z) : result (list pyval) :=
  rbind (sorted_desc "score" results) (fun results =>
  Ok (slice_to results top_n)).

(** The [list] a response document holds under ["result"], as the [for]
    clause of lines 60 and 82 reads it. *)
Definition result_items (doc : pyval) : result (list pyval) :=
  rbind (getitem doc "result") iterate.

(** A computation leaves the observation [obs] of the state as it found
    it, whatever it returns or raises. *)
Definition keeps {X A} (obs : state -> X) (m : M A) : Prop :=
  forall s, obs (snd (m s)) = obs s.

Definition opened (s : state) : list image := opens (trace s).

Definition closed (s : state) : list image := closes (trace s).

Definition posted (s : state) : list (string * list (string * pyobj)) :=
  posts (trace s).

(** ** Concrete values used in the scenarios *)

Definition itemA : pyval := PDict [("score", PNum (9 # 10)); ("label", PStr "A")].
Definition itemB : pyval := PDict [("score", PNum (4 # 10)); ("label", PStr "B")].

Definition fixed_response : pyval := PDict [("result", PList [itemA; itemB])].

(** A service that answers every request with [fixed_response], next to a
    file system on which every image opens and encodes. *)
Definition mock_world : World := {|
  Image_open := fun _ => Ok 0%nat;
  Image_save_jpeg := fun _ => Ok [];
  requests_post := fun _ _ => Ok {| Response_json := Ok fixed_response |}
|}.

(** A world whose endpoint cannot be reached. *)
Definition unreachable_world : World := {|
  Image_open := fun _ => Ok 0%nat;
  Image_save_jpeg := fun _ => Ok [];
  requests_post := fun _ _ => Err TransportError
|}.

(** An item with no score, and a service whose answer holds it between two
    well-formed items. *)
Definition itemNoScore : pyval := PDict [("label", PStr "C")].

Definition malformed_response : pyval :=
  PDict [("result", PList [itemA; itemNoScore; itemB])].

Definition malformed_world : World := {|
  Image_open := fun _ => Ok 0%nat;
  Image_save_jpeg := fun _ => Ok [];
  requests_post := fun _ _ => Ok {| Response_json := Ok malformed_response |}
|}.

(** A service whose answer is not JSON. *)
Definition undecodable_world : World := {|
  Image_open := fun _ => Ok 0%nat;
  Image_save_jpeg := fun _ => Ok [];
  requests_post := fun _ _ => Ok {| Response_json := Err DecodeError |}
|}.

(** A file system on which no image opens. *)
Definition no_image_world : World := {|
  Image_open := fun _ => Err ImageLoadError;
  Image_save_jpeg := fun _ => Ok [];
  requests_post := fun _ _ => Ok {| Response_json := Ok fixed_response |}
|}.

Definition fresh : state := {| self_endpoint := None; trace := [] |}.

Definition ready (endpoint : string) : state :=
  {| self_endpoint := Some endpoint; trace := [] |}.

(** ** The filter step *)

Lemma keep_sort_key key t item :
  keep key t item = rbind (sort_key key item) (fun q => Ok (Qle_bool t q)).
Proof.
  unfold keep, sort_key, py_ge.
  destruct (getitem item key); reflexivity.
Qed.

Lemma keep_scored key t item :
  scored key item -> keep key t item = Ok (score_ge key t item).
Proof.
  intros [q Hq]. rewrite keep_sort_key. unfold score_ge.
  rewrite Hq. reflexivity.
Qed.

Lemma keep_inv key t item b :
  keep key t item = Ok b -> scored key item /\ b = score_ge key t item.
Proof.
  rewrite keep_sort_key. unfold scored, score_ge.
  destruct (sort_key key item) as [q|e]; simpl; intros H; inversion H.
  split; [exists q|]; reflexivity.
Qed.

Lemma comprehension_filter key t items :
  Forall (scored key) items ->
  comprehension key t items = Ok (filter (score_ge key t) items).
Proof.
  induction 1 as [|item rest Hitem _ IH]; simpl.
  - reflexivity.
  - rewrite (keep_scored _ t _ Hitem), IH. simpl.
    destruct (score_ge key t item); reflexivity.
Qed.

Lemma comprehension_inv key t items out :
  comprehension key t items = Ok out ->
  Forall (scored key) items /\ out = filter (score_ge key t) items.
Proof.
  revert out. induction items as [|item rest IH]; simpl; intros out H.
  - inversion H. split; [constructor | reflexivity].
  - destruct (keep key t item) as [b|e] eqn:Hk; simpl in H; [|discriminate].
    destruct (comprehension key t rest) as [kept|e] eqn:Hc; simpl in H;
      [|discriminate].
    apply keep_inv in Hk. destruct Hk as [Hs ->].
    destruct (IH kept eq_refl) as [Hall ->].
    inversion H. split; [constructor; assumption | reflexivity].
Qed.

Lemma score_ge_spec key t item :
  score_ge key t item = true <->
  exists q, sort_key key item = Ok q /\ (t <= q)%Q.
Proof.
  unfold score_ge. destruct (sort_key key item) as [q|e].
  - rewrite Qle_bool_iff. split.
    + intros H. exists q. split; [reflexivity | exact H].
    + intros [q' [Hq' Hle]]. inversion Hq'. exact Hle.
  - split; [discriminate|]. intros [q [H _]]. discriminate.
Qed.

(** No item below the threshold survives line 82, and every survivor has a
    numeric score: the sort of line 85 never meets a key it cannot
    compare. *)
Lemma comprehension_scored key t items out :
  comprehension key t items = Ok out -> Forall (scored key) out.
Proof.
  intros H. apply comprehension_inv in H. destruct H as [_ ->].
  apply Forall_forall. intros x Hx. apply filter_In in Hx.
  destruct Hx as [_ Hx]. apply score_ge_spec in Hx.
  destruct Hx as [q [Hq _]]. exists q. exact Hq.
Qed.

(** C1.  For every threshold [t] and every list [R] of result items, the
    comprehension of lines 60 and 82 returns exactly the sub-list of [R] made
    of the items whose score is at least [t], in the order of [R]; every item
    it returns has a score at least [t], none has a score below [t], and no
    item of [R] with a score at least [t] is left out. *)
Theorem filter_step_exact (key : string) (t : Q) (R : list pyval) :
  Forall (scored key) R ->
  comprehension key t R = Ok (filter (score_ge key t) R)
  /\ (forall x, In x (filter (score_ge key t) R) ->
        exists q, sort_key key x = Ok q /\ (t <= q)%Q)
  /\ (forall x q, In x (filter (score_ge key t) R) ->
        sort_key key x = Ok q -> ~ (q < t)%Q)
  /\ (forall x q, In x R -> sort_key key x = Ok q -> (t <= q)%Q ->
        In x (filter (score_ge key t) R)).
Proof.
  intros HR. split; [apply comprehension_filter; exact HR|].
  split; [|split].
  - intros x Hx. apply filter_In in Hx. apply score_ge_spec, Hx.
  - intros x q Hx Hq Hlt. apply filter_In in Hx. destruct Hx as [_ Hx].
    apply score_ge_spec in Hx. destruct Hx as [q' [Hq' Hle]].
    rewrite Hq in Hq'. inversion Hq'. subst q'.
    exact (Qlt_not_le _ _ Hlt Hle).
  - intros x q Hin Hq Hle. apply filter_In. split; [exact Hin|].
    apply score_ge_spec. exists q. split; assumption.
Qed.

Lemma filter_step_exact_witness :
  Forall (scored "score") [itemA; itemB]
  /\ comprehension "score" (1 # 2) [itemA; itemB]
     = Ok (filter (score_ge "score" (1 # 2)) [itemA; itemB])
  /\ (forall x, In x (filter (score_ge "score" (1 # 2)) [itemA; itemB]) ->
        exists q, sort_key "score" x = Ok q /\ (1 # 2 <= q)%Q)
  /\ (forall x q, In x (filter (score_ge "score" (1 # 2)) [itemA; itemB]) ->
        sort_key "score" x = Ok q -> ~ (q < 1 # 2)%Q)
  /\ (forall x q, In x [itemA; itemB] -> sort_key "score" x = Ok q ->
        (1 # 2 <= q)%Q ->
        In x (filter (score_ge "score" (1 # 2)) [itemA; itemB])).
Proof.
  assert (HR : Forall (scored "score") [itemA; itemB]).
  { constructor; [exists (9 # 10)%Q; reflexivity|].
    constructor; [exists (4 # 10)%Q; reflexivity | constructor]. }
  split; [exact HR|].
  exact (filter_step_exact "score" (1 # 2) [itemA; itemB] HR).
Defined.

(** ** The stable descending sort *)

Section SortDesc.

Context {A : Type}.

Lemma insert_desc_perm (x : Q * A) l : Permutation (insert_desc x l) (x :: l).
Proof.
  induction l as [|y rest IH]; simpl.
  - apply Permutation_refl.
  - destruct (Qle_bool (fst y) (fst x)).
    + apply Permutation_refl.
    + eapply perm_trans; [apply perm_skip, IH | apply perm_swap].
Qed.

Lemma sort_desc_perm (l : list (Q * A)) : Permutation (sort_desc l) l.
Proof.
  induction l as [|x rest IH]; simpl.
  - apply perm_nil.
  - eapply perm_trans; [apply insert_desc_perm | apply perm_skip, IH].
Qed.

Lemma insert_desc_sorted (x : Q * A) l :
  StronglySorted key_geq l -> StronglySorted key_geq (insert_desc x l).
Proof.
  induction 1 as [|y rest Hrest IH Hy]; simpl.
  - repeat constructor.
  - destruct (Qle_bool (fst y) (fst x)) eqn:Hle.
    + apply Qle_bool_iff in Hle.
      constructor; [constructor; assumption|].
      constructor; [exact Hle|].
      eapply Forall_impl; [|exact Hy].
      intros z Hz. unfold key_geq in *. eapply Qle_trans; eassumption.
    + constructor; [exact IH|].
      apply (@Permutation_Forall _ _ (x :: rest)).
      * apply Permutation_sym, insert_desc_perm.
      * constructor; [|exact Hy].
        unfold key_geq. apply Qlt_le_weak, Qnot_le_lt.
        intros Hc. apply Qle_bool_iff in Hc. congruence.
Qed.

Lemma sort_desc_sorted (l : list (Q * A)) : StronglySorted key_geq (sort_desc l).
Proof.
  induction l as [|x rest IH]; simpl.
  - constructor.
  - apply insert_desc_sorted, IH.
Qed.

(** Insertion passes only entries with a strictly greater key, so among
    the entries with one given key the new one comes first. *)
Lemma insert_desc_tie q (x : Q * A) l :
  filter (key_tie q) (insert_desc x l) = filter (key_tie q) (x :: l).
Proof.
  induction l as [|y rest IH]; [reflexivity|].
  simpl insert_desc. destruct (Qle_bool (fst y) (fst x)) eqn:Hle;
    [reflexivity|].
  change (filter (key_tie q) (y :: insert_desc x rest))
    with (if key_tie q y then y :: filter (key_tie q) (insert_desc x rest)
          else filter (key_tie q) (insert_desc x rest)).
  rewrite IH. simpl.
  destruct (key_tie q y) eqn:Hy; [|reflexivity].
  destruct (key_tie q x) eqn:Hx; [|reflexivity].
  exfalso. unfold key_tie in *.
  apply Qeq_bool_iff in Hy, Hx.
  assert (Hc : (fst y <= fst x)%Q) by (rewrite Hy, Hx; apply Qle_refl).
  apply Qle_bool_iff in Hc. congruence.
Qed.

Lemma sort_desc_tie q (l : list (Q * A)) :
  filter (key_tie q) (sort_desc l) = filter (key_tie q) l.
Proof.
  induction l as [|x rest IH]; [reflexivity|].
  simpl sort_desc. rewrite insert_desc_tie. simpl. rewrite IH. reflexivity.
Qed.

End SortDesc.

Section StableUnique.

Context {A : Type}.

Lemma key_tie_refl (x : Q * A) : key_tie (fst x) x = true.
Proof. unfold key_tie. apply Qeq_bool_iff, Qeq_refl. Qed.

Lemma key_tie_nil (l : list (Q * A)) :
  (forall q, filter (key_tie q) l = []) -> l = [].
Proof.
  destruct l as [|x rest]; [reflexivity|]. intros H.
  specialize (H (fst x)). simpl in H. rewrite key_tie_refl in H.
  discriminate.
Qed.

Lemma key_geq_head (x y : Q * A) (rest : list (Q * A)) :
  StronglySorted key_geq (y :: rest) -> In x (y :: rest) ->
  (fst x <= fst y)%Q.
Proof.
  intros Hs [<-|Hin]; [apply Qle_refl|].
  inversion Hs as [|? ? _ Hall]; subst.
  exact (proj1 (Forall_forall _ _) Hall x Hin).
Qed.

Lemma key_tie_head_in (x : Q * A) (r l : list (Q * A)) :
  (forall q, filter (key_tie q) (x :: r) = filter (key_tie q) l) -> In x l.
Proof.
  intros H. specialize (H (fst x)). simpl in H. rewrite key_tie_refl in H.
  assert (Hin : In x (filter (key_tie (fst x)) l))
    by (rewrite <- H; left; reflexivity).
  apply filter_In in Hin. exact (proj1 Hin).
Qed.

(** Two lists in descending key order that agree on the entries of every
    key, in order, are the same list: the outcome of a stable descending
    sort is determined. *)
Lemma stable_desc_unique (l1 l2 : list (Q * A)) :
  StronglySorted key_geq l1 ->
  StronglySorted key_geq l2 ->
  (forall q, filter (key_tie q) l1 = filter (key_tie q) l2) ->
  l1 = l2.
Proof.
  revert l2. induction l1 as [|x r1 IH]; intros l2 Hs1 Hs2 H.
  - symmetry. apply key_tie_nil. intros q. rewrite <- H. reflexivity.
  - destruct l2 as [|y r2].
    + apply key_tie_nil. exact H.
    + assert (Hxy : (fst x <= fst y)%Q).
      { apply (key_geq_head x y r2 Hs2), (key_tie_head_in x r1), H. }
      assert (Hyx : (fst y <= fst x)%Q).
      { apply (key_geq_head y x r1 Hs1), (key_tie_head_in y r2).
        intros q. symmetry. apply H. }
      assert (Hty : key_tie (fst x) y = true).
      { unfold key_tie. apply Qeq_bool_iff, Qle_antisym; assumption. }
      pose proof (H (fst x)) as Hhead. simpl in Hhead.
      rewrite key_tie_refl, Hty in Hhead.
      injection Hhead as Heq _. subst y. f_equal.
      inversion Hs1; inversion Hs2; subst.
      apply IH; [assumption | assumption|].
      intros q. specialize (H q). simpl in H.
      destruct (key_tie q x); [inversion H; reflexivity | exact H].
Qed.

Lemma sort_desc_unique (l out : list (Q * A)) :
  StronglySorted key_geq out ->
  (forall q, filter (key_tie q) out = filter (key_tie q) l) ->
  out = sort_desc l.
Proof.
  intros Hs Ht. apply stable_desc_unique; [exact Hs | apply sort_desc_sorted|].
  intros q. rewrite sort_desc_tie. apply Ht.
Qed.

End StableUnique.

(** ** Line 85: [sorted] on result items *)

Lemma decorate_inv key items d :
  mapM (decorate key) items = Ok d ->
  map snd d = items /\ Forall (decorated key) d.
Proof.
  revert d. induction items as [|item rest IH]; simpl; intros d H.
  - inversion H. split; [reflexivity | constructor].
  - unfold decorate at 1 in H.
    destruct (sort_key key item) as [k|e] eqn:Hk; simpl in H; [|discriminate].
    destruct (mapM (decorate key) rest) as [d'|e] eqn:Hd; simpl in H;
      [|discriminate].
    inversion H. destruct (IH d' eq_refl) as [Hmap Hall].
    split; [simpl; rewrite Hmap; reflexivity|].
    constructor; [exact Hk | exact Hall].
Qed.

Lemma decorate_scored key items :
  Forall (scored key) items -> exists d, mapM (decorate key) items = Ok d.
Proof.
  induction 1 as [|item rest [k Hk] _ [d IH]]; simpl.
  - exists []. reflexivity.
  - exists ((k, item) :: d). unfold decorate at 1.
    rewrite Hk. simpl. rewrite IH. reflexivity.
Qed.

Lemma decorated_same_score key q p :
  decorated key p -> same_score key q (snd p) = key_tie q p.
Proof.
  unfold decorated, same_score, key_tie. intros ->. reflexivity.
Qed.

Lemma same_score_decorated key q d :
  Forall (decorated key) d ->
  filter (same_score key q) (map snd d) = map snd (filter (key_tie q) d).
Proof.
  induction 1 as [|p rest Hp _ IH]; [reflexivity|].
  simpl. rewrite (decorated_same_score _ q _ Hp), IH.
  destruct (key_tie q p); reflexivity.
Qed.

Lemma descending_decorated key d :
  Forall (decorated key) d -> StronglySorted key_geq d ->
  descending key (map snd d).
Proof.
  intros Hd Hs. induction Hs as [|p rest Hrest IH Hp]; simpl.
  - constructor.
  - inversion Hd as [|? ? Hdp Hdrest]; subst.
    constructor; [exact (IH Hdrest)|].
    apply Forall_forall. intros b Hb. apply in_map_iff in Hb.
    destruct Hb as [r [<- Hr]].
    exists (fst p), (fst r). split; [exact Hdp|]. split.
    + exact (proj1 (Forall_forall _ _) Hdrest r Hr).
    + exact (proj1 (Forall_forall _ _) Hp r Hr).
Qed.

(** On result items [sorted] returns a list with the same items, in
    descending order of score, in which the items of any one score keep the
    order they had. *)
Lemma sorted_desc_spec key items :
  Forall (scored key) items ->
  exists out,
    sorted_desc key items = Ok out
    /\ Permutation out items
    /\ descending key out
    /\ forall q, filter (same_score key q) out
                 = filter (same_score key q) items.
Proof.
  intros Hitems. destruct (decorate_scored _ _ Hitems) as [d Hd].
  destruct (decorate_inv _ _ _ Hd) as [Hmap Hdec].
  assert (Hsd : Forall (decorated key) (sort_desc d)).
  { eapply Permutation_Forall; [|exact Hdec].
    apply Permutation_sym, sort_desc_perm. }
  exists (map snd (sort_desc d)). unfold sorted_desc. rewrite Hd. simpl.
  split; [reflexivity|]. split; [|split].
  - rewrite <- Hmap. apply Permutation_map, sort_desc_perm.
  - apply descending_decorated; [exact Hsd | apply sort_desc_sorted].
  - intros q. rewrite (same_score_decorated _ _ _ Hsd), sort_desc_tie.
    rewrite <- (same_score_decorated _ _ _ Hdec), Hmap. reflexivity.
Qed.

Lemma decorated_inj key (d1 d2 : list (Q * pyval)) :
  Forall (decorated key) d1 -> Forall (decorated key) d2 ->
  map snd d1 = map snd d2 -> d1 = d2.
Proof.
  intros H1. revert d2. induction H1 as [|p r1 Hp _ IH]; intros d2 H2 Hmap.
  - destruct d2; [reflexivity | discriminate].
  - destruct H2 as [|p' r2 Hp' H2]; [discriminate|].
    simpl in Hmap. injection Hmap as Hsnd Hrest.
    unfold decorated in Hp, Hp'. rewrite Hsnd, Hp' in Hp.
    injection Hp as Hfst.
    f_equal; [|exact (IH _ H2 Hrest)].
    destruct p, p'; simpl in *; subst; reflexivity.
Qed.

Lemma decorated_descending key d :
  Forall (decorated key) d -> descending key (map snd d) ->
  StronglySorted key_geq d.
Proof.
  induction 1 as [|p rest Hp Hrest IH]; simpl; intros Hd.
  - constructor.
  - inversion Hd as [|? ? Hd' Hall]; subst.
    constructor; [exact (IH Hd')|].
    apply Forall_forall. intros r Hr.
    assert (Hge : ge_by key (snd p) (snd r)).
    { apply (proj1 (Forall_forall _ _) Hall). apply in_map, Hr. }
    destruct Hge as [qa [qb [Ha [Hb Hle]]]].
    pose proof (proj1 (Forall_forall _ _) Hrest r Hr) as Hdr.
    unfold decorated in Hp, Hdr. rewrite Hp in Ha. rewrite Hdr in Hb.
    injection Ha as <-. injection Hb as <-. exact Hle.
Qed.

(** What [sorted] guarantees determines what it returns: a list of result
    items in descending order of score, holding for each score the items
    that [items] holds, in the same order, is the list [sorted_desc]
    returns. *)
Lemma sorted_desc_unique key items out :
  Forall (scored key) items ->
  Forall (scored key) out ->
  descending key out ->
  (forall q, filter (same_score key q) out
             = filter (same_score key q) items) ->
  sorted_desc key items = Ok out.
Proof.
  intros Hitems Hout Hd Ht.
  destruct (decorate_scored _ _ Hitems) as [d Hdec].
  destruct (decorate_scored _ _ Hout) as [dout Hdecout].
  destruct (decorate_inv _ _ _ Hdec) as [Hmap Hall].
  destruct (decorate_inv _ _ _ Hdecout) as [Hmapout Hallout].
  unfold sorted_desc. rewrite Hdec. simpl. f_equal.
  rewrite <- Hmapout. f_equal. symmetry.
  apply sort_desc_unique.
  - apply (decorated_descending key); [exact Hallout|].
    rewrite Hmapout. exact Hd.
  - intros q. apply (decorated_inj key).
    + apply Forall_forall. intros p Hin. apply filter_In in Hin.
      exact (proj1 (Forall_forall _ _) Hallout p (proj1 Hin)).
    + apply Forall_forall. intros p Hin. apply filter_In in Hin.
      exact (proj1 (Forall_forall _ _) Hall p (proj1 Hin)).
    + rewrite <- (same_score_decorated key q _ Hallout).
      rewrite <- (same_score_decorated key q _ Hall).
      rewrite Hmapout, Hmap. apply Ht.
Qed.

Lemma sorted_desc_unique_witness :
  sorted_desc "score" [itemB; itemA] = Ok [itemA; itemB].
Proof.
  assert (HA : scored "score" itemA) by (exists (9 # 10)%Q; reflexivity).
  assert (HB : scored "score" itemB) by (exists (4 # 10)%Q; reflexivity).
  apply (sorted_desc_unique "score" [itemB; itemA] [itemA; itemB]).
  - repeat constructor; assumption.
  - repeat constructor; assumption.
  - repeat constructor.
    exists (9 # 10)%Q, (4 # 10)%Q.
    split; [reflexivity|]. split; [reflexivity | discriminate].
  - intros q. unfold same_score. simpl.
    destruct (Qeq_bool (9 # 10) q) eqn:H9, (Qeq_bool (4 # 10) q) eqn:H4;
      try reflexivity.
    apply Qeq_bool_iff in H9, H4. rewrite <- H4 in H9. discriminate.
Defined.

(** ** Line 88: the slice *)

Lemma slice_to_nonneg {A} (l : list A) (n : Z) :
  (0 <= n)%Z -> slice_to l n = firstn (Z.to_nat n) l.
Proof.
  intros H. unfold slice_to.
  destruct (Z.leb_spec 0 n) as [_|Hlt]; [reflexivity | lia].
Qed.

Lemma slice_to_neg {A} (l : list A) (n : Z) :
  (n < 0)%Z ->
  slice_to l n = firstn (List.length l - Z.to_nat (- n)) l.
Proof.
  intros H. unfold slice_to.
  destruct (Z.leb_spec 0 n) as [Hle|_]; [lia|].
  f_equal. lia.
Qed.

Lemma slice_to_prefix {A} (l : list A) (n : Z) :
  exists m, slice_to l n = firstn m l.
Proof.
  unfold slice_to. destruct (0 <=? n)%Z; eexists; reflexivity.
Qed.

Lemma slice_to_length {A} (l : list A) (n : Z) :
  (0 <= n)%Z ->
  Z.of_nat (List.length (slice_to l n)) = Z.min n (Z.of_nat (List.length l)).
Proof.
  intros H. rewrite (slice_to_nonneg _ _ H), length_firstn. lia.
Qed.

Lemma StronglySorted_firstn {A} (R : A -> A -> Prop) (l : list A) (m : nat) :
  StronglySorted R l -> StronglySorted R (firstn m l).
Proof.
  intros Hs. revert m. induction Hs as [|x rest Hrest IH Hx]; intros m.
  - rewrite firstn_nil. constructor.
  - destruct m as [|m]; simpl; [constructor|].
    constructor; [apply IH|].
    apply Forall_forall. intros y Hy.
    apply (proj1 (Forall_forall _ _) Hx).
    rewrite <- (firstn_skipn m rest). apply in_or_app. left. exact Hy.
Qed.

(** Cutting a list short cuts each of its sub-lists short. *)
Lemma filter_firstn {A} (P : A -> bool) (l : list A) (m : nat) :
  exists m', filter P (firstn m l) = firstn m' (filter P l).
Proof.
  revert m. induction l as [|x rest IH]; intros m.
  - exists 0%nat. rewrite firstn_nil. reflexivity.
  - destruct m as [|m]; simpl.
    + exists 0%nat. reflexivity.
    + destruct (IH m) as [m' Hm']. destruct (P x).
      * exists (S m'). simpl. rewrite Hm'. reflexivity.
      * exists m'. exact Hm'.
Qed.

(** ** The rank step: lines 85 and 88 *)

Lemma rank_sorted (R : list pyval) (top_n : Z) :
  Forall (scored "score") R ->
  exists sorted,
    sorted_desc "score" R = Ok sorted
    /\ rank R top_n = Ok (slice_to sorted top_n)
    /\ Permutation sorted R
    /\ descending "score" sorted
    /\ forall q, filter (same_score "score" q) sorted
                 = filter (same_score "score" q) R.
Proof.
  intros HR. destruct (sorted_desc_spec _ _ HR) as [sorted [Hs [Hp [Hd Ht]]]].
  exists sorted. unfold rank. rewrite Hs. simpl. repeat split; assumption.
Qed.

Lemma descending_slice key (l : list pyval) (n : Z) :
  descending key l -> descending key (slice_to l n).
Proof.
  intros Hd. destruct (slice_to_prefix l n) as [m ->].
  apply StronglySorted_firstn, Hd.
Qed.

(** C2.  For every non-negative [n] and every list [R] of result items, the
    rank step returns a list of length [min n (length R)] that is in
    descending order of score. *)
Theorem rank_length_sorted (R : list pyval) (n : Z) :
  (0 <= n)%Z ->
  Forall (scored "score") R ->
  exists out,
    rank R n = Ok out
    /\ Z.of_nat (List.length out) = Z.min n (Z.of_nat (List.length R))
    /\ descending "score" out.
Proof.
  intros Hn HR.
  destruct (rank_sorted R n HR) as [sorted [_ [Hr [Hp [Hd _]]]]].
  exists (slice_to sorted n). split; [exact Hr|]. split.
  - rewrite (slice_to_length _ _ Hn), (Permutation_length Hp). reflexivity.
  - apply descending_slice, Hd.
Qed.

Lemma scored_itemA : scored "score" itemA.
Proof. exists (9 # 10)%Q. reflexivity. Qed.

Lemma scored_itemB : scored "score" itemB.
Proof. exists (4 # 10)%Q. reflexivity. Qed.

Lemma rank_length_sorted_witness :
  (0 <= 1)%Z
  /\ Forall (scored "score") [itemB; itemA]
  /\ exists out,
       rank [itemB; itemA] 1 = Ok out
       /\ Z.of_nat (List.length out)
          = Z.min 1 (Z.of_nat (List.length [itemB; itemA]))
       /\ descending "score" out.
Proof.
  assert (H0 : (0 <= 1)%Z) by lia.
  assert (HR : Forall (scored "score") [itemB; itemA]).
  { constructor; [exact scored_itemB|].
    constructor; [exact scored_itemA | constructor]. }
  split; [exact H0|]. split; [exact HR|].
  exact (rank_length_sorted [itemB; itemA] 1 H0 HR).
Defined.

(** C4, as stated, fails for a negative [top_n]: [results[:-1]] drops the
    last item only. *)
Lemma rank_negative_top_n_not_empty :
  (-1 <= 0)%Z
  /\ Forall (scored "score") [itemA; itemB]
  /\ rank [itemA; itemB] (-1) = Ok [itemA]
  /\ rank [itemA; itemB] (-1) <> Ok [].
Proof.
  split; [lia|]. split.
  - constructor; [exact scored_itemA|].
    constructor; [exact scored_itemB | constructor].
  - split; [reflexivity | discriminate].
Qed.

(** C4, amended.  For every list [R] of result items: [top_n = 0] yields
    the empty list; a negative [top_n] yields the descending-sorted list
    without its last [- top_n] items, which is empty exactly when [- top_n]
    is at least the length of [R]; and a [top_n] of at least the length of
    [R] yields the whole descending-sorted list. *)
Theorem rank_top_n_edges (R : list pyval) (top_n : Z) :
  Forall (scored "score") R ->
  exists sorted,
    sorted_desc "score" R = Ok sorted
    /\ Permutation sorted R
    /\ descending "score" sorted
    /\ (top_n = 0%Z -> rank R top_n = Ok [])
    /\ ((top_n < 0)%Z ->
        rank R top_n
        = Ok (firstn (List.length R - Z.to_nat (- top_n)) sorted))
    /\ ((top_n < 0)%Z ->
        (rank R top_n = Ok [] <-> (Z.of_nat (List.length R) <= - top_n)%Z))
    /\ ((Z.of_nat (List.length R) <= top_n)%Z -> rank R top_n = Ok sorted).
Proof.
  intros HR.
  destruct (rank_sorted R top_n HR) as [sorted [Hs [Hr [Hp [Hd _]]]]].
  pose proof (Permutation_length Hp) as Hlen.
  assert (Hneg : (top_n < 0)%Z ->
                 rank R top_n
                 = Ok (firstn (List.length R - Z.to_nat (- top_n)) sorted)).
  { intros Hlt. rewrite Hr, (slice_to_neg _ _ Hlt), Hlen. reflexivity. }
  exists sorted. split; [exact Hs|]. split; [exact Hp|]. split; [exact Hd|].
  split; [|split; [exact Hneg|split]].
  - intros ->. rewrite Hr. reflexivity.
  - intros Hlt. rewrite (Hneg Hlt). split.
    + intros H. inversion H as [H'].
      apply (f_equal (@List.length pyval)) in H'.
      rewrite length_firstn in H'. simpl in H'. lia.
    + intros H.
      replace (List.length R - Z.to_nat (- top_n))%nat with 0%nat by lia.
      reflexivity.
  - intros Hge. rewrite Hr. f_equal.
    rewrite slice_to_nonneg by lia.
    apply firstn_all2. lia.
Qed.

Lemma rank_top_n_edges_witness :
  Forall (scored "score") [itemB; itemA]
  /\ exists sorted,
       sorted_desc "score" [itemB; itemA] = Ok sorted
       /\ Permutation sorted [itemB; itemA]
       /\ descending "score" sorted
       /\ ((-1)%Z = 0%Z -> rank [itemB; itemA] (-1) = Ok [])
       /\ ((-1 < 0)%Z ->
           rank [itemB; itemA] (-1)
           = Ok (firstn (List.length [itemB; itemA] - Z.to_nat (- (-1)))
                        sorted))
       /\ ((-1 < 0)%Z ->
           (rank [itemB; itemA] (-1) = Ok []
            <-> (Z.of_nat (List.length [itemB; itemA]) <= - (-1))%Z))
       /\ ((Z.of_nat (List.length [itemB; itemA]) <= -1)%Z ->
           rank [itemB; itemA] (-1) = Ok sorted).
Proof.
  assert (HR : Forall (scored "score") [itemB; itemA]).
  { constructor; [exact scored_itemB|].
    constructor; [exact scored_itemA | constructor]. }
  split; [exact HR|].
  exact (rank_top_n_edges [itemB; itemA] (-1) HR).
Defined.

(** ** Running the methods *)

Section Runs.

Variable W : World.

(** One call of the base [predict_bytes]: one request to the stored
    endpoint, whose outcome is the outcome of the call. *)
Lemma FastAPIBaseModel_predict_bytes_run image_bytes s endpoint :
  self_endpoint s = Some endpoint ->
  FastAPIBaseModel_predict_bytes W [image_bytes] s
  = (rbind (requests_post W endpoint [("file", image_bytes)]) Response_json,
     {| self_endpoint := Some endpoint;
        trace := trace s ++ [EvPost endpoint [("file", image_bytes)]] |}).
Proof.
  intros He.
  unfold FastAPIBaseModel_predict_bytes, bind, get_endpoint, post, bind,
    emit, lift.
  rewrite He. simpl. rewrite He.
  destruct (requests_post W endpoint [("file", image_bytes)]); reflexivity.
Qed.

Lemma KClassify_predict_bytes_run image_bytes threshold top_n s endpoint doc :
  self_endpoint s = Some endpoint ->
  rbind (requests_post W endpoint [("file", image_bytes)]) Response_json
  = Ok doc ->
  KClassify_predict_bytes W image_bytes threshold top_n s
  = (rbind (result_items doc) (fun items =>
     rbind (filter_step items threshold) (fun kept => rank kept top_n)),
     {| self_endpoint := Some endpoint;
        trace := (trace s ++ [EvPost endpoint [("file", image_bytes)]])
                 ++ [EvDebug doc] |}).
Proof.
  intros He Hdoc.
  unfold KClassify_predict_bytes, bind at 1.
  rewrite (FastAPIBaseModel_predict_bytes_run _ _ _ He), Hdoc.
  unfold bind, debug, emit, lift, ret, result_items, filter_step, rank.
  simpl.
  destruct (rbind (getitem doc "result") iterate) as [items|e]; simpl;
    [|reflexivity].
  destruct (comprehension "score" threshold items) as [kept|e]; simpl;
    [|reflexivity].
  destruct (sorted_desc "score" kept); reflexivity.
Qed.

Lemma KClassify_predict_bytes_fail image_bytes threshold top_n s endpoint e :
  self_endpoint s = Some endpoint ->
  rbind (requests_post W endpoint [("file", image_bytes)]) Response_json
  = Err e ->
  KClassify_predict_bytes W image_bytes threshold top_n s
  = (Err e,
     {| self_endpoint := Some endpoint;
        trace := trace s ++ [EvPost endpoint [("file", image_bytes)]] |}).
Proof.
  intros He Hdoc.
  unfold KClassify_predict_bytes, bind at 1.
  rewrite (FastAPIBaseModel_predict_bytes_run _ _ _ He), Hdoc.
  reflexivity.
Qed.

End Runs.

(** ** What a method leaves untouched *)

Lemma opens_app tr tr' : opens (tr ++ tr') = opens tr ++ opens tr'.
Proof.
  induction tr as [|e tr IH]; [reflexivity|].
  destruct e; simpl; rewrite IH; reflexivity.
Qed.

Lemma closes_app tr tr' : closes (tr ++ tr') = closes tr ++ closes tr'.
Proof.
  induction tr as [|e tr IH]; [reflexivity|].
  destruct e; simpl; rewrite IH; reflexivity.
Qed.

Lemma posts_app tr tr' : posts (tr ++ tr') = posts tr ++ posts tr'.
Proof.
  induction tr as [|e tr IH]; [reflexivity|].
  destruct e; simpl; rewrite IH; reflexivity.
Qed.

Section Keeps.

Context {X : Type} (obs : state -> X).

Lemma keeps_ret {A} (a : A) : keeps obs (ret a).
Proof. intros s. reflexivity. Qed.

Lemma keeps_raise {A} (e : exn) : keeps obs (@raise A e).
Proof. intros s. reflexivity. Qed.

Lemma keeps_lift {A} (r : result A) : keeps obs (lift r).
Proof. intros s. reflexivity. Qed.

Lemma keeps_get_endpoint : keeps obs get_endpoint.
Proof.
  intros s. unfold get_endpoint. destruct (self_endpoint s); reflexivity.
Qed.

Lemma keeps_bind {A B} (m : M A) (k : A -> M B) :
  keeps obs m -> (forall a, keeps obs (k a)) -> keeps obs (bind m k).
Proof.
  intros Hm Hk s. unfold bind. specialize (Hm s).
  destruct (m s) as [[a|e] s1]; simpl in *.
  - rewrite Hk. exact Hm.
  - exact Hm.
Qed.

End Keeps.

Lemma keeps_endpoint_emit e : keeps self_endpoint (emit e).
Proof. intros s. reflexivity. Qed.

Lemma keeps_opened_emit e :
  opens [e] = [] -> keeps opened (emit e).
Proof.
  intros He s. unfold opened, emit. simpl.
  rewrite opens_app, He. apply app_nil_r.
Qed.

Lemma keeps_closed_emit e :
  closes [e] = [] -> keeps closed (emit e).
Proof.
  intros He s. unfold closed, emit. simpl.
  rewrite closes_app, He. apply app_nil_r.
Qed.

Lemma keeps_posted_emit e :
  posts [e] = [] -> keeps posted (emit e).
Proof.
  intros He s. unfold posted, emit. simpl.
  rewrite posts_app, He. apply app_nil_r.
Qed.

Create HintDb keeps.

#[local] Hint Resolve keeps_ret keeps_raise keeps_lift keeps_get_endpoint
  keeps_endpoint_emit : keeps.
#[local] Hint Extern 1 (keeps _ (bind _ _)) =>
  apply keeps_bind; [|intro] : keeps.
#[local] Hint Extern 2 (keeps opened (emit _)) =>
  apply keeps_opened_emit; reflexivity : keeps.
#[local] Hint Extern 2 (keeps closed (emit _)) =>
  apply keeps_closed_emit; reflexivity : keeps.
#[local] Hint Extern 2 (keeps posted (emit _)) =>
  apply keeps_posted_emit; reflexivity : keeps.

Section Frames.

Variable W : World.

Lemma keeps_FastAPIBaseModel_predict_bytes {X} (obs : state -> X) args :
  (forall e, opens [e] = [] -> closes [e] = [] -> keeps obs (emit e)) ->
  keeps obs (FastAPIBaseModel_predict_bytes W args).
Proof.
  intros Hemit. unfold FastAPIBaseModel_predict_bytes, post.
  destruct args as [|a [|b rest]]; auto with keeps.
Qed.

Lemma keeps_KClassify_predict_bytes {X} (obs : state -> X) b t n :
  (forall e, opens [e] = [] -> closes [e] = [] -> keeps obs (emit e)) ->
  keeps obs (KClassify_predict_bytes W b t n).
Proof.
  intros Hemit. unfold KClassify_predict_bytes, debug.
  apply keeps_bind; [apply keeps_FastAPIBaseModel_predict_bytes, Hemit|].
  intros doc. apply keeps_bind; [apply Hemit; reflexivity|].
  intros _. auto 10 with keeps.
Qed.

Lemma keeps_endpoint_FastAPIBaseModel_predict_bytes args :
  keeps self_endpoint (FastAPIBaseModel_predict_bytes W args).
Proof.
  apply keeps_FastAPIBaseModel_predict_bytes. auto with keeps.
Qed.

Lemma keeps_endpoint_KClassify_predict_bytes b t n :
  keeps self_endpoint (KClassify_predict_bytes W b t n).
Proof.
  apply keeps_KClassify_predict_bytes. auto with keeps.
Qed.

Lemma keeps_endpoint_KClassify_predict_file path t n :
  keeps self_endpoint (KClassify_predict_file W path t n).
Proof.
  unfold KClassify_predict_file, PIL_open, PIL_save_jpeg, PIL_close.
  pose proof keeps_endpoint_KClassify_predict_bytes.
  auto 20 with keeps.
Qed.

Lemma keeps_endpoint_YOLOv5_predict_file path t :
  keeps self_endpoint (YOLOv5_predict_file W path t).
Proof.
  unfold YOLOv5_predict_file, PIL_open, PIL_save_jpeg, PIL_close.
  pose proof keeps_endpoint_FastAPIBaseModel_predict_bytes.
  auto 20 with keeps.
Qed.

End Frames.

(** ** The endpoint *)

Lemma string_length_app (s1 s2 : string) :
  String.length (s1 ++ s2) = (String.length s1 + String.length s2)%nat.
Proof.
  induction s1 as [|c s1 IH]; simpl; [reflexivity | rewrite IH; reflexivity].
Qed.

Lemma substring_whole (s : string) : substring 0 (String.length s) s = s.
Proof.
  induction s as [|c s IH]; simpl; [reflexivity | rewrite IH; reflexivity].
Qed.

Lemma substring_after (s1 s2 : string) :
  substring (String.length s1) (String.length s2) (s1 ++ s2) = s2.
Proof.
  induction s1 as [|c s1 IH]; simpl; [apply substring_whole | exact IH].
Qed.

Lemma endswith_app (s suffix : string) : endswith (s ++ suffix) suffix = true.
Proof.
  unfold endswith. rewrite string_length_app.
  apply andb_true_iff. split.
  - apply Nat.leb_le. lia.
  - replace (String.length s + String.length suffix - String.length suffix)%nat
      with (String.length s) by lia.
    rewrite substring_after. apply String.eqb_refl.
Qed.

Lemma normalize_cases (e : string) :
  normalize e = if endswith e "/" then e else (e ++ "/")%string.
Proof.
  unfold normalize. destruct (endswith e "/"); reflexivity.
Qed.

Lemma normalize_endswith (e : string) : endswith (normalize e) "/" = true.
Proof.
  rewrite normalize_cases. destruct (endswith e "/") eqn:He.
  - exact He.
  - apply endswith_app.
Qed.

Lemma normalize_idempotent (e : string) : normalize (normalize e) = normalize e.
Proof.
  rewrite (normalize_cases (normalize e)), normalize_endswith. reflexivity.
Qed.

Lemma FastAPIBaseModel_init_run (e : string) (s : state) :
  FastAPIBaseModel_init e s
  = (Ok tt,
     {| self_endpoint := Some (normalize e);
        trace := trace s
                 ++ [EvInfo ("Initializing FastAPIBaseModel with endpoint: "
                             ++ normalize e)] |}).
Proof. reflexivity. Qed.

(** C6.  Constructed with ["localhost:3000/predict"] the client stores
    ["localhost:3000/predict/"]; constructed with
    ["localhost:3000/predict/"] it stores that string unchanged.
    Constructing a second client with the endpoint a first one stored stores
    the same endpoint again, and the constructor appends ['/'] exactly when
    the string it is given does not end with one. *)
Theorem endpoint_normalization :
  (forall s,
      self_endpoint (snd (FastAPIBaseModel_init "localhost:3000/predict" s))
      = Some "localhost:3000/predict/")
  /\ (forall s,
      self_endpoint (snd (FastAPIBaseModel_init "localhost:3000/predict/" s))
      = Some "localhost:3000/predict/")
  /\ (forall e s s', exists stored,
      self_endpoint (snd (FastAPIBaseModel_init e s)) = Some stored
      /\ self_endpoint (snd (FastAPIBaseModel_init stored s')) = Some stored)
  /\ (forall e s, endswith e "/" = true ->
      self_endpoint (snd (FastAPIBaseModel_init e s)) = Some e)
  /\ (forall e s, endswith e "/" = false ->
      self_endpoint (snd (FastAPIBaseModel_init e s))
      = Some (e ++ "/")%string).
Proof.
  split; [reflexivity|]. split; [reflexivity|]. split; [|split].
  - intros e s s'. exists (normalize e).
    rewrite !FastAPIBaseModel_init_run. simpl.
    rewrite normalize_idempotent. split; reflexivity.
  - intros e s He. rewrite FastAPIBaseModel_init_run. simpl.
    rewrite normalize_cases, He. reflexivity.
  - intros e s He. rewrite FastAPIBaseModel_init_run. simpl.
    rewrite normalize_cases, He. reflexivity.
Qed.

(** C10.  The constructor returns for every string, the empty one
    included, and the endpoint it stores ends with ['/'] (["/"] for the
    empty string); no method run afterwards changes the stored endpoint,
    whether it returns or raises. *)
Theorem constructor_total_endpoint_kept :
  (forall e s, exists s' stored,
      FastAPIBaseModel_init e s = (Ok tt, s')
      /\ self_endpoint s' = Some stored
      /\ endswith stored "/" = true)
  /\ (forall s, self_endpoint (snd (FastAPIBaseModel_init "" s)) = Some "/")
  /\ (forall e, YOLOv5_init e = FastAPIBaseModel_init e)
  /\ (forall e, KClassify_init e = FastAPIBaseModel_init e)
  /\ (forall W args, keeps self_endpoint (FastAPIBaseModel_predict_bytes W args))
  /\ (forall W path t, keeps self_endpoint (YOLOv5_predict_file W path t))
  /\ (forall W b t n, keeps self_endpoint (KClassify_predict_bytes W b t n))
  /\ (forall W path t n,
      keeps self_endpoint (KClassify_predict_file W path t n)).
Proof.
  split.
  { intros e s. eexists. exists (normalize e).
    rewrite FastAPIBaseModel_init_run.
    split; [reflexivity|]. split; [reflexivity | apply normalize_endswith]. }
  split; [reflexivity|]. split; [reflexivity|]. split; [reflexivity|].
  split; [exact keeps_endpoint_FastAPIBaseModel_predict_bytes|].
  split; [exact keeps_endpoint_YOLOv5_predict_file|].
  split; [exact keeps_endpoint_KClassify_predict_bytes|].
  exact keeps_endpoint_KClassify_predict_file.
Qed.

(** ** The classification pipeline *)

Lemma KClassify_predict_bytes_unset (W : World) image_bytes threshold top_n s :
  self_endpoint s = None ->
  KClassify_predict_bytes W image_bytes threshold top_n s
  = (Err AttributeError, s).
Proof.
  intros He.
  unfold KClassify_predict_bytes, FastAPIBaseModel_predict_bytes, bind,
    get_endpoint.
  rewrite He. reflexivity.
Qed.

(** [KClassify.predict_bytes] returns only when the request completed, its
    body decoded, and the ["result"] field of the document is a sequence of
    items with a numeric score. *)
Lemma KClassify_predict_bytes_returns
    (W : World) (image_bytes : pyobj) (threshold : Q) (top_n : Z)
    (s : state) (out : list pyval) :
  fst (KClassify_predict_bytes W image_bytes threshold top_n s) = Ok out ->
  exists endpoint resp doc items,
    self_endpoint s = Some endpoint
    /\ requests_post W endpoint [("file", image_bytes)] = Ok resp
    /\ Response_json resp = Ok doc
    /\ result_items doc = Ok items
    /\ Forall (scored "score") items.
Proof.
  destruct (self_endpoint s) as [endpoint|] eqn:He.
  2: { rewrite (KClassify_predict_bytes_unset _ _ _ _ _ He). discriminate. }
  destruct (requests_post W endpoint [("file", image_bytes)]) as [resp|e]
    eqn:Hpost.
  2: { rewrite (KClassify_predict_bytes_fail W _ threshold top_n _ _ e He);
         [discriminate | rewrite Hpost; reflexivity]. }
  destruct (Response_json resp) as [doc|e] eqn:Hjson.
  2: { rewrite (KClassify_predict_bytes_fail W _ threshold top_n _ _ e He);
         [discriminate | rewrite Hpost; exact Hjson]. }
  rewrite (KClassify_predict_bytes_run W _ threshold top_n _ _ doc He)
    by (rewrite Hpost; exact Hjson).
  simpl. destruct (result_items doc) as [items|e] eqn:Hitems; simpl;
    [|discriminate].
  unfold filter_step.
  destruct (comprehension "score" threshold items) as [kept|e] eqn:Hkept;
    simpl; [|discriminate].
  intros _. exists endpoint, resp, doc, items.
  repeat split; try assumption; try reflexivity.
  exact (proj1 (comprehension_inv _ _ _ _ Hkept)).
Qed.

Lemma KClassify_predict_bytes_returns_witness :
  exists endpoint resp doc items,
    self_endpoint (ready "localhost:3000/predict/") = Some endpoint
    /\ requests_post mock_world endpoint [("file", OBytes [])] = Ok resp
    /\ Response_json resp = Ok doc
    /\ result_items doc = Ok items
    /\ Forall (scored "score") items.
Proof.
  apply (KClassify_predict_bytes_returns mock_world (OBytes []) (1 # 2) 5
           (ready "localhost:3000/predict/") [itemA]).
  reflexivity.
Defined.

(** C9.  For every response whose ["result"] field is a sequence of
    classification items, every threshold and every non-negative [top_n],
    [KClassify.predict_bytes] returns a list of at most [top_n] items, in
    descending order of score, in which the items of any one score stand in
    the order they have in the filtered response. *)
Theorem KClassify_top_n_sorted_stable
    (W : World) (image_bytes : pyobj) (threshold : Q) (top_n : Z)
    (s : state) (endpoint : string) (resp : Response) (doc : pyval)
    (items : list pyval) :
  self_endpoint s = Some endpoint ->
  requests_post W endpoint [("file", image_bytes)] = Ok resp ->
  Response_json resp = Ok doc ->
  result_items doc = Ok items ->
  Forall (scored "score") items ->
  (0 <= top_n)%Z ->
  exists out,
    fst (KClassify_predict_bytes W image_bytes threshold top_n s) = Ok out
    /\ (Z.of_nat (List.length out) <= top_n)%Z
    /\ descending "score" out
    /\ forall q, exists m,
         filter (same_score "score" q) out
         = firstn m (filter (same_score "score" q)
                            (filter (score_ge "score" threshold) items)).
Proof.
  intros He Hpost Hjson Hitems Hscored Hn.
  assert (Hdoc : rbind (requests_post W endpoint [("file", image_bytes)])
                       Response_json = Ok doc)
    by (rewrite Hpost; exact Hjson).
  rewrite (KClassify_predict_bytes_run W _ threshold top_n _ _ _ He Hdoc).
  simpl. rewrite Hitems. simpl. unfold filter_step.
  rewrite (comprehension_filter _ threshold _ Hscored). simpl.
  set (kept := filter (score_ge "score" threshold) items).
  assert (Hkept : Forall (scored "score") kept).
  { apply (comprehension_scored "score" threshold items).
    apply comprehension_filter, Hscored. }
  destruct (rank_sorted kept top_n Hkept) as [sorted [_ [Hr [Hp [Hd Ht]]]]].
  exists (slice_to sorted top_n). split; [exact Hr|]. split; [|split].
  - rewrite (slice_to_length _ _ Hn). lia.
  - apply descending_slice, Hd.
  - intros q. rewrite (slice_to_nonneg _ _ Hn), <- Ht.
    apply filter_firstn.
Qed.

Lemma KClassify_top_n_sorted_stable_witness :
  exists out,
    fst (KClassify_predict_bytes mock_world (OBytes []) (1 # 2) 5
           (ready "localhost:3000/predict/")) = Ok out
    /\ (Z.of_nat (List.length out) <= 5)%Z
    /\ descending "score" out
    /\ forall q, exists m,
         filter (same_score "score" q) out
         = firstn m (filter (same_score "score" q)
                            (filter (score_ge "score" (1 # 2))
                                    [itemA; itemB])).
Proof.
  apply (KClassify_top_n_sorted_stable mock_world (OBytes []) (1 # 2) 5
           (ready "localhost:3000/predict/") "localhost:3000/predict/"
           {| Response_json := Ok fixed_response |} fixed_response
           [itemA; itemB]).
  - reflexivity.
  - reflexivity.
  - reflexivity.
  - reflexivity.
  - constructor; [exact scored_itemA|].
    constructor; [exact scored_itemB | constructor].
  - lia.
Defined.

(** C3.  Whatever the image, when the service answers with
    [{"result": [{"score": 0.9, "label": "A"}, {"score": 0.4, "label": "B"}]}]
    a client constructed with any endpoint returns exactly
    [[{"score": 0.9, "label": "A"}]] from [predict_bytes] called with
    threshold 0.5 and top_n 5. *)
Theorem KClassify_fixed_response
    (W : World) (endpoint : string) (image_bytes : pyobj) (s : state) :
  (forall url files,
      requests_post W url files = Ok {| Response_json := Ok fixed_response |}) ->
  fst (bind (KClassify_init endpoint)
            (fun _ => KClassify_predict_bytes W image_bytes (1 # 2) 5) s)
  = Ok [itemA].
Proof.
  intros Hpost. unfold bind at 1, KClassify_init.
  rewrite FastAPIBaseModel_init_run.
  rewrite (KClassify_predict_bytes_run W image_bytes (1 # 2) 5 _
             (normalize endpoint) fixed_response);
    [reflexivity | reflexivity | rewrite Hpost; reflexivity].
Qed.

Lemma KClassify_fixed_response_witness :
  fst (bind (KClassify_init "localhost:3000/predict")
            (fun _ => KClassify_predict_bytes mock_world (OBytes []) (1 # 2) 5)
            fresh)
  = Ok [itemA].
Proof.
  apply (KClassify_fixed_response mock_world "localhost:3000/predict"
           (OBytes []) fresh).
  intros url files. reflexivity.
Defined.

(** The other scenario of the same response: threshold 0.0 and top_n 1. *)
Lemma KClassify_fixed_response_top_1
    (W : World) (endpoint : string) (image_bytes : pyobj) (s : state) :
  (forall url files,
      requests_post W url files = Ok {| Response_json := Ok fixed_response |}) ->
  fst (bind (KClassify_init endpoint)
            (fun _ => KClassify_predict_bytes W image_bytes 0 1) s)
  = Ok [itemA].
Proof.
  intros Hpost. unfold bind at 1, KClassify_init.
  rewrite FastAPIBaseModel_init_run.
  rewrite (KClassify_predict_bytes_run W image_bytes 0 1 _
             (normalize endpoint) fixed_response);
    [reflexivity | reflexivity | rewrite Hpost; reflexivity].
Qed.

Lemma KClassify_fixed_response_top_1_witness :
  fst (bind (KClassify_init "localhost:3000/predict")
            (fun _ => KClassify_predict_bytes mock_world (OBytes []) 0 1)
            fresh)
  = Ok [itemA].
Proof.
  apply (KClassify_fixed_response_top_1 mock_world "localhost:3000/predict"
           (OBytes []) fresh).
  intros url files. reflexivity.
Defined.

(** ** Failures *)

(** C8.  When the request to the stored endpoint cannot complete,
    [predict_bytes] of the base class and of [KClassify] raise the transport
    error and return nothing; the request was sent once and no other was. *)
Theorem predict_bytes_unreachable
    (W : World) (image_bytes : pyobj) (threshold : Q) (top_n : Z)
    (s : state) (endpoint : string) :
  self_endpoint s = Some endpoint ->
  requests_post W endpoint [("file", image_bytes)] = Err TransportError ->
  fst (FastAPIBaseModel_predict_bytes W [image_bytes] s) = Err TransportError
  /\ posted (snd (FastAPIBaseModel_predict_bytes W [image_bytes] s))
     = posted s ++ [(endpoint, [("file", image_bytes)])]
  /\ fst (KClassify_predict_bytes W image_bytes threshold top_n s)
     = Err TransportError
  /\ posted (snd (KClassify_predict_bytes W image_bytes threshold top_n s))
     = posted s ++ [(endpoint, [("file", image_bytes)])].
Proof.
  intros He Hpost.
  assert (Hdoc : rbind (requests_post W endpoint [("file", image_bytes)])
                       Response_json = Err TransportError)
    by (rewrite Hpost; reflexivity).
  rewrite (FastAPIBaseModel_predict_bytes_run W _ _ _ He), Hdoc.
  rewrite (KClassify_predict_bytes_fail W _ threshold top_n _ _ _ He Hdoc).
  unfold posted. simpl. rewrite posts_app.
  repeat split; reflexivity.
Qed.

Lemma predict_bytes_unreachable_witness :
  fst (FastAPIBaseModel_predict_bytes unreachable_world [OBytes []]
         (ready "localhost:3000/predict/")) = Err TransportError
  /\ posted (snd (FastAPIBaseModel_predict_bytes unreachable_world [OBytes []]
                    (ready "localhost:3000/predict/")))
     = posted (ready "localhost:3000/predict/")
       ++ [("localhost:3000/predict/", [("file", OBytes [])])]
  /\ fst (KClassify_predict_bytes unreachable_world (OBytes []) (1 # 2) 5
            (ready "localhost:3000/predict/")) = Err TransportError
  /\ posted (snd (KClassify_predict_bytes unreachable_world (OBytes [])
                    (1 # 2) 5 (ready "localhost:3000/predict/")))
     = posted (ready "localhost:3000/predict/")
       ++ [("localhost:3000/predict/", [("file", OBytes [])])].
Proof.
  apply (predict_bytes_unreachable unreachable_world (OBytes []) (1 # 2) 5
           (ready "localhost:3000/predict/") "localhost:3000/predict/").
  - reflexivity.
  - reflexivity.
Defined.

(** ** The detection variant *)

(** Line 56 passes two positional arguments to a method that takes one. *)
Lemma YOLOv5_super_call (W : World) (byte_io : pyobj) (threshold : Q) :
  FastAPIBaseModel_predict_bytes W [byte_io; OFloat threshold]
  = raise TypeError.
Proof. reflexivity. Qed.

(** Every run of [YOLOv5.predict_file]: the image is opened and encoded,
    then the call on line 56 raises; lines 57 to 62 are never reached. *)
Lemma YOLOv5_predict_file_run
    (W : World) (path : string) (threshold : Q) (s : state) :
  YOLOv5_predict_file W path threshold s
  = match Image_open W path with
    | Err e => (Err e, s)
    | Ok h =>
        (match Image_save_jpeg W h with
         | Err e => Err e
         | Ok _ => Err TypeError
         end,
         {| self_endpoint := self_endpoint s;
            trace := trace s ++ [EvOpen h] |})
    end.
Proof.
  unfold YOLOv5_predict_file, PIL_open, PIL_save_jpeg.
  unfold bind, lift, emit, ret.
  destruct (Image_open W path) as [h|e]; simpl; [|reflexivity].
  destruct (Image_save_jpeg W h); reflexivity.
Qed.

(** C5 does not hold of the code.  [YOLOv5.predict_file] never returns:
    for every path and threshold it raises, without sending a request and
    without closing the image; when the image opens and encodes, what it
    raises is the [TypeError] of the call on line 56. *)
Theorem YOLOv5_predict_file_never_returns
    (W : World) (path : string) (threshold : Q) (s : state) :
  (exists e, fst (YOLOv5_predict_file W path threshold s) = Err e)
  /\ posted (snd (YOLOv5_predict_file W path threshold s)) = posted s
  /\ (forall h data,
        Image_open W path = Ok h ->
        Image_save_jpeg W h = Ok data ->
        fst (YOLOv5_predict_file W path threshold s) = Err TypeError).
Proof.
  rewrite YOLOv5_predict_file_run. unfold posted.
  destruct (Image_open W path) as [h|e]; simpl.
  - rewrite posts_app, app_nil_r. split; [|split; [reflexivity|]].
    + destruct (Image_save_jpeg W h); eexists; reflexivity.
    + intros h' data' Hh Hd. inversion Hh. subst h'.
      rewrite Hd. reflexivity.
  - split; [eexists; reflexivity|]. split; [reflexivity|].
    intros h' data' Hh. discriminate.
Qed.

(** ** The image handle *)

Lemma keeps_opened_KClassify_predict_bytes (W : World) b t n :
  keeps opened (KClassify_predict_bytes W b t n).
Proof.
  apply keeps_KClassify_predict_bytes.
  intros e Ho _. apply keeps_opened_emit, Ho.
Qed.

Lemma keeps_closed_KClassify_predict_bytes (W : World) b t n :
  keeps closed (KClassify_predict_bytes W b t n).
Proof.
  apply keeps_KClassify_predict_bytes.
  intros e _ Hc. apply keeps_closed_emit, Hc.
Qed.

Lemma KClassify_predict_file_run
    (W : World) (path : string) (threshold : Q) (top_n : Z) (s : state)
    (h : image) :
  Image_open W path = Ok h ->
  KClassify_predict_file W path threshold top_n s
  = match Image_save_jpeg W h with
    | Err e =>
        (Err e, {| self_endpoint := self_endpoint s;
                   trace := trace s ++ [EvOpen h] |})
    | Ok data =>
        match KClassify_predict_bytes W (OBytesIO data 0) threshold top_n
                {| self_endpoint := self_endpoint s;
                   trace := trace s ++ [EvOpen h] |} with
        | (Ok results, s2) =>
            (Ok results, {| self_endpoint := self_endpoint s2;
                            trace := trace s2 ++ [EvClose h] |})
        | (Err e, s2) => (Err e, s2)
        end
    end.
Proof.
  intros Hopen.
  unfold KClassify_predict_file, PIL_open, PIL_save_jpeg, PIL_close.
  unfold bind, lift, emit, ret. rewrite Hopen. simpl.
  destruct (Image_save_jpeg W h) as [data|e]; simpl; [|reflexivity].
  destruct (KClassify_predict_bytes W (OBytesIO data 0) threshold top_n _)
    as [[results|e] s2]; reflexivity.
Qed.

(** C7 does not hold of the code.  Once the image is open, every run of
    [KClassify.predict_file] that raises leaves it open: [image.close()] on
    line 105 is reached only when [predict_bytes] has returned, and a run
    that returns closes it.  [YOLOv5.predict_file] never reaches its
    [image.close()] on line 57. *)
Theorem KClassify_predict_file_close_only_on_success
    (W : World) (path : string) (threshold : Q) (top_n : Z) (s : state)
    (h : image) :
  Image_open W path = Ok h ->
  opened (snd (KClassify_predict_file W path threshold top_n s))
  = opened s ++ [h]
  /\ closed (snd (KClassify_predict_file W path threshold top_n s))
     = match fst (KClassify_predict_file W path threshold top_n s) with
       | Ok _ => closed s ++ [h]
       | Err _ => closed s
       end
  /\ opened (snd (YOLOv5_predict_file W path threshold s)) = opened s ++ [h]
  /\ closed (snd (YOLOv5_predict_file W path threshold s)) = closed s.
Proof.
  intros Hopen.
  assert (Hyolo :
    opened (snd (YOLOv5_predict_file W path threshold s)) = opened s ++ [h]
    /\ closed (snd (YOLOv5_predict_file W path threshold s)) = closed s).
  { rewrite YOLOv5_predict_file_run, Hopen. unfold opened, closed. simpl.
    rewrite opens_app, closes_app. simpl. rewrite app_nil_r.
    split; reflexivity. }
  rewrite <- and_assoc. split; [|exact Hyolo]. clear Hyolo.
  rewrite (KClassify_predict_file_run _ _ _ _ _ _ Hopen).
  set (s1 := {| self_endpoint := self_endpoint s;
                trace := trace s ++ [EvOpen h] |}).
  assert (Ho1 : opened s1 = opened s ++ [h])
    by (unfold opened, s1; simpl; apply opens_app).
  assert (Hc1 : closed s1 = closed s)
    by (unfold closed, s1; simpl; rewrite closes_app; apply app_nil_r).
  destruct (Image_save_jpeg W h) as [data|e]; [|split; assumption].
  pose proof (keeps_opened_KClassify_predict_bytes W (OBytesIO data 0)
                threshold top_n s1) as Ho2.
  pose proof (keeps_closed_KClassify_predict_bytes W (OBytesIO data 0)
                threshold top_n s1) as Hc2.
  destruct (KClassify_predict_bytes W (OBytesIO data 0) threshold top_n s1)
    as [[results|e] s2]; simpl in *.
  - unfold opened, closed in *. simpl.
    rewrite opens_app, closes_app. simpl.
    rewrite app_nil_r, Ho2, Hc2, Ho1, Hc1. split; reflexivity.
  - rewrite Ho2, Hc2. split; assumption.
Qed.

Lemma KClassify_predict_file_close_only_on_success_witness :
  opened (snd (KClassify_predict_file unreachable_world "image.jpg" (1 # 2) 5
                 (ready "localhost:3000/predict/")))
  = opened (ready "localhost:3000/predict/") ++ [0%nat]
  /\ closed (snd (KClassify_predict_file unreachable_world "image.jpg"
                    (1 # 2) 5 (ready "localhost:3000/predict/")))
     = match fst (KClassify_predict_file unreachable_world "image.jpg"
                    (1 # 2) 5 (ready "localhost:3000/predict/")) with
       | Ok _ => closed (ready "localhost:3000/predict/") ++ [0%nat]
       | Err _ => closed (ready "localhost:3000/predict/")
       end
  /\ opened (snd (YOLOv5_predict_file unreachable_world "image.jpg" (1 # 2)
                    (ready "localhost:3000/predict/")))
     = opened (ready "localhost:3000/predict/") ++ [0%nat]
  /\ closed (snd (YOLOv5_predict_file unreachable_world "image.jpg" (1 # 2)
                    (ready "localhost:3000/predict/")))
     = closed (ready "localhost:3000/predict/").
Proof.
  apply (KClassify_predict_file_close_only_on_success unreachable_world
           "image.jpg" (1 # 2) 5 (ready "localhost:3000/predict/") 0%nat).
  reflexivity.
Defined.

(** The run of the witness above: the transport error leaves handle 0
    open. *)
Lemma KClassify_predict_file_leak :
  KClassify_predict_file unreachable_world "image.jpg" (1 # 2) 5
    (ready "localhost:3000/predict/")
  = (Err TransportError,
     {| self_endpoint := Some "localhost:3000/predict/";
        trace := [EvOpen 0%nat;
                  EvPost "localhost:3000/predict/"
                         [("file", OBytesIO [] 0)]] |}).
Proof. reflexivity. Qed.

(** ** More on the filter of line 82 *)

Lemma rbind_ret {A} (r : result A) : rbind r (fun a => Ok a) = r.
Proof. destruct r; reflexivity. Qed.

(** The first item whose score cannot be compared with the threshold ends
    the comprehension with its exception, whatever follows it. *)
Lemma comprehension_first_error key t good bad rest e :
  Forall (scored key) good ->
  sort_key key bad = Err e ->
  comprehension key t (good ++ bad :: rest) = Err e.
Proof.
  intros Hgood Hbad. induction Hgood as [|item good Hitem _ IH]; simpl.
  - rewrite keep_sort_key, Hbad. reflexivity.
  - rewrite (keep_scored _ t _ Hitem), IH. reflexivity.
Qed.

(** Filtering at [t2] what a filter at a lower threshold [t1] returned
    gives what one filter at [t2] gives, item for item and exception for
    exception. *)
Theorem comprehension_threshold_compose
    (key : string) (t1 t2 : Q) (R : list pyval) :
  (t1 <= t2)%Q ->
  rbind (comprehension key t1 R) (comprehension key t2)
  = comprehension key t2 R.
Proof.
  intros Ht. induction R as [|item rest IH]; [reflexivity|].
  simpl. rewrite !keep_sort_key.
  destruct (sort_key key item) as [q|e] eqn:Hq; simpl; [|reflexivity].
  destruct (comprehension key t1 rest) as [k1|e]; simpl in *.
  - destruct (Qle_bool t1 q) eqn:H1.
    + simpl. rewrite keep_sort_key, Hq. simpl. rewrite IH. reflexivity.
    + assert (H2 : Qle_bool t2 q = false).
      { destruct (Qle_bool t2 q) eqn:H2; [|reflexivity].
        apply Qle_bool_iff in H2.
        assert (Hc : Qle_bool t1 q = true)
          by (apply Qle_bool_iff; eapply Qle_trans; eassumption).
        congruence. }
      rewrite H2, IH. symmetry. apply rbind_ret.
  - rewrite <- IH. reflexivity.
Qed.

Lemma comprehension_threshold_compose_witness :
  rbind (comprehension "score" (1 # 10) [itemA; itemB])
        (comprehension "score" (1 # 2))
  = comprehension "score" (1 # 2) [itemA; itemB].
Proof.
  apply (comprehension_threshold_compose "score" (1 # 10) (1 # 2)
           [itemA; itemB]).
  discriminate.
Defined.

(** ** More on the classification pipeline *)

Lemma StronglySorted_split {A} (R : A -> A -> Prop) (l : list A) (m : nat) :
  StronglySorted R l ->
  forall a b, In a (firstn m l) -> In b (skipn m l) -> R a b.
Proof.
  intros Hs. revert m. induction Hs as [|x rest Hrest IH Hx]; intros m a b.
  - rewrite firstn_nil. intros [].
  - destruct m as [|m]; simpl; [intros []|].
    intros [<-|Ha] Hb.
    + apply (proj1 (Forall_forall _ _) Hx).
      rewrite <- (firstn_skipn m rest). apply in_or_app. right. exact Hb.
    + exact (IH m a b Ha Hb).
Qed.

(** One item without a numeric score fails the whole call: when the items
    before it are well formed, [KClassify.predict_bytes] raises the exception
    of that item ([KeyError] for a missing score, [TypeError] for a score
    that is not a number) and returns none of the other items; the request
    has been sent once. *)
Theorem KClassify_malformed_item_fails
    (W : World) (image_bytes : pyobj) (threshold : Q) (top_n : Z)
    (s : state) (endpoint : string) (resp : Response) (doc : pyval)
    (good rest : list pyval) (bad : pyval) (e : exn) :
  self_endpoint s = Some endpoint ->
  requests_post W endpoint [("file", image_bytes)] = Ok resp ->
  Response_json resp = Ok doc ->
  result_items doc = Ok (good ++ bad :: rest) ->
  Forall (scored "score") good ->
  sort_key "score" bad = Err e ->
  fst (KClassify_predict_bytes W image_bytes threshold top_n s) = Err e
  /\ posted (snd (KClassify_predict_bytes W image_bytes threshold top_n s))
     = posted s ++ [(endpoint, [("file", image_bytes)])].
Proof.
  intros He Hpost Hjson Hitems Hgood Hbad.
  assert (Hdoc : rbind (requests_post W endpoint [("file", image_bytes)])
                       Response_json = Ok doc)
    by (rewrite Hpost; exact Hjson).
  rewrite (KClassify_predict_bytes_run W _ threshold top_n _ _ _ He Hdoc).
  simpl. rewrite Hitems. simpl. unfold filter_step.
  rewrite (comprehension_first_error _ threshold _ _ rest _ Hgood Hbad).
  split; [reflexivity|].
  unfold posted. simpl. rewrite !posts_app. simpl. rewrite app_nil_r.
  reflexivity.
Qed.

Lemma KClassify_malformed_item_fails_witness :
  fst (KClassify_predict_bytes malformed_world (OBytes []) 0 5
         (ready "localhost:3000/predict/")) = Err KeyError
  /\ posted (snd (KClassify_predict_bytes malformed_world (OBytes []) 0 5
                    (ready "localhost:3000/predict/")))
     = posted (ready "localhost:3000/predict/")
       ++ [("localhost:3000/predict/", [("file", OBytes [])])].
Proof.
  apply (KClassify_malformed_item_fails malformed_world (OBytes []) 0 5
           (ready "localhost:3000/predict/") "localhost:3000/predict/"
           {| Response_json := Ok malformed_response |} malformed_response
           [itemA] [itemB] itemNoScore KeyError).
  - reflexivity.
  - reflexivity.
  - reflexivity.
  - reflexivity.
  - constructor; [exists (9 # 10)%Q; reflexivity | constructor].
  - reflexivity.
Defined.

(** What [KClassify.predict_bytes] returns are the best of the items that
    pass the threshold: every returned item has a score of at least the
    threshold, the returned items together with the ones cut off by
    [top_n] are the items of the response that pass the threshold, each as
    often as it occurs there, and no item cut off has a higher score than a
    returned one.  This holds for every [top_n], negative ones included. *)
Theorem KClassify_returns_the_best
    (W : World) (image_bytes : pyobj) (threshold : Q) (top_n : Z)
    (s : state) (endpoint : string) (resp : Response) (doc : pyval)
    (items : list pyval) :
  self_endpoint s = Some endpoint ->
  requests_post W endpoint [("file", image_bytes)] = Ok resp ->
  Response_json resp = Ok doc ->
  result_items doc = Ok items ->
  Forall (scored "score") items ->
  exists out cut,
    fst (KClassify_predict_bytes W image_bytes threshold top_n s) = Ok out
    /\ Permutation (out ++ cut) (filter (score_ge "score" threshold) items)
    /\ (forall a, In a out ->
          In a items /\ score_ge "score" threshold a = true)
    /\ (forall a b, In a out -> In b cut -> ge_by "score" a b).
Proof.
  intros He Hpost Hjson Hitems Hscored.
  assert (Hdoc : rbind (requests_post W endpoint [("file", image_bytes)])
                       Response_json = Ok doc)
    by (rewrite Hpost; exact Hjson).
  rewrite (KClassify_predict_bytes_run W _ threshold top_n _ _ _ He Hdoc).
  simpl. rewrite Hitems. simpl. unfold filter_step.
  rewrite (comprehension_filter _ threshold _ Hscored). simpl.
  set (kept := filter (score_ge "score" threshold) items).
  assert (Hkept : Forall (scored "score") kept).
  { apply (comprehension_scored "score" threshold items).
    apply comprehension_filter, Hscored. }
  destruct (rank_sorted kept top_n Hkept) as [sorted [_ [Hr [Hp [Hd _]]]]].
  destruct (slice_to_prefix sorted top_n) as [m Hm].
  exists (firstn m sorted), (skipn m sorted).
  rewrite Hr, Hm. split; [reflexivity|]. split; [|split].
  - rewrite firstn_skipn. exact Hp.
  - intros a Ha.
    assert (Hin : In a kept).
    { apply (Permutation_in _ Hp).
      rewrite <- (firstn_skipn m sorted). apply in_or_app. left. exact Ha. }
    apply filter_In in Hin. exact Hin.
  - intros a b. apply StronglySorted_split. exact Hd.
Qed.

Lemma KClassify_returns_the_best_witness :
  exists out cut,
    fst (KClassify_predict_bytes mock_world (OBytes []) 0 1
           (ready "localhost:3000/predict/")) = Ok out
    /\ Permutation (out ++ cut) (filter (score_ge "score" 0) [itemA; itemB])
    /\ (forall a, In a out ->
          In a [itemA; itemB] /\ score_ge "score" 0 a = true)
    /\ (forall a b, In a out -> In b cut -> ge_by "score" a b).
Proof.
  apply (KClassify_returns_the_best mock_world (OBytes []) 0 1
           (ready "localhost:3000/predict/") "localhost:3000/predict/"
           {| Response_json := Ok fixed_response |} fixed_response
           [itemA; itemB]).
  - reflexivity.
  - reflexivity.
  - reflexivity.
  - reflexivity.
  - constructor; [exists (9 # 10)%Q; reflexivity|].
    constructor; [exists (4 # 10)%Q; reflexivity | constructor].
Defined.

(** A list already in descending order is what [sorted] returns for it. *)
Lemma sorted_desc_fixed key (l : list pyval) :
  Forall (scored key) l -> descending key l -> sorted_desc key l = Ok l.
Proof.
  intros Hl Hd. destruct (decorate_scored _ _ Hl) as [d Hdec].
  destruct (decorate_inv _ _ _ Hdec) as [Hmap Hall].
  unfold sorted_desc. rewrite Hdec. simpl. f_equal.
  rewrite <- (sort_desc_unique d d); [exact Hmap | | reflexivity].
  apply (decorated_descending key); [exact Hall|].
  rewrite Hmap. exact Hd.
Qed.

Lemma filter_all {A} (P : A -> bool) (l : list A) :
  (forall a, In a l -> P a = true) -> filter P l = l.
Proof.
  induction l as [|x rest IH]; intros H; [reflexivity|].
  simpl. rewrite (H x (or_introl eq_refl)), IH; [reflexivity|].
  intros a Ha. apply H. right. exact Ha.
Qed.

(** The post-processing is idempotent: run again on the list
    [KClassify.predict_bytes] returned, with the same threshold and the same
    non-negative [top_n], the filter of line 82 and the sort and cut of
    lines 85 and 88 return that list unchanged. *)
Theorem KClassify_postprocess_idempotent
    (W : World) (image_bytes : pyobj) (threshold : Q) (top_n : Z)
    (s : state) (endpoint : string) (resp : Response) (doc : pyval)
    (items : list pyval) :
  self_endpoint s = Some endpoint ->
  requests_post W endpoint [("file", image_bytes)] = Ok resp ->
  Response_json resp = Ok doc ->
  result_items doc = Ok items ->
  Forall (scored "score") items ->
  (0 <= top_n)%Z ->
  exists out,
    fst (KClassify_predict_bytes W image_bytes threshold top_n s) = Ok out
    /\ filter_step out threshold = Ok out
    /\ rank out top_n = Ok out.
Proof.
  intros He Hpost Hjson Hitems Hscored Hn.
  assert (Hdoc : rbind (requests_post W endpoint [("file", image_bytes)])
                       Response_json = Ok doc)
    by (rewrite Hpost; exact Hjson).
  rewrite (KClassify_predict_bytes_run W _ threshold top_n _ _ _ He Hdoc).
  simpl. rewrite Hitems. simpl. unfold filter_step at 1.
  rewrite (comprehension_filter _ threshold _ Hscored). simpl.
  set (kept := filter (score_ge "score" threshold) items).
  assert (Hkept : Forall (scored "score") kept).
  { apply (comprehension_scored "score" threshold items).
    apply comprehension_filter, Hscored. }
  destruct (rank_sorted kept top_n Hkept) as [sorted [_ [Hr [Hp [Hd _]]]]].
  set (out := slice_to sorted top_n).
  assert (Hsub : forall a, In a out -> In a kept).
  { intros a Ha. apply (Permutation_in _ Hp).
    unfold out in Ha. rewrite (slice_to_nonneg _ _ Hn) in Ha.
    rewrite <- (firstn_skipn (Z.to_nat top_n) sorted).
    apply in_or_app. left. exact Ha. }
  assert (Hout : Forall (scored "score") out).
  { apply Forall_forall. intros a Ha.
    exact (proj1 (Forall_forall _ _) Hkept a (Hsub a Ha)). }
  exists out. split; [exact Hr|]. split.
  - unfold filter_step. rewrite (comprehension_filter _ threshold _ Hout).
    f_equal. apply filter_all. intros a Ha.
    apply Hsub, filter_In in Ha. exact (proj2 Ha).
  - unfold rank.
    rewrite (sorted_desc_fixed _ _ Hout (descending_slice _ _ _ Hd)).
    simpl. f_equal. rewrite (slice_to_nonneg _ _ Hn).
    apply firstn_all2.
    pose proof (slice_to_length sorted top_n Hn) as Hlen.
    fold out in Hlen. lia.
Qed.

Lemma KClassify_postprocess_idempotent_witness :
  exists out,
    fst (KClassify_predict_bytes mock_world (OBytes []) 0 1
           (ready "localhost:3000/predict/")) = Ok out
    /\ filter_step out 0 = Ok out
    /\ rank out 1 = Ok out.
Proof.
  apply (KClassify_postprocess_idempotent mock_world (OBytes []) 0 1
           (ready "localhost:3000/predict/") "localhost:3000/predict/"
           {| Response_json := Ok fixed_response |} fixed_response
           [itemA; itemB]).
  - reflexivity.
  - reflexivity.
  - reflexivity.
  - reflexivity.
  - constructor; [exists (9 # 10)%Q; reflexivity|].
    constructor; [exists (4 # 10)%Q; reflexivity | constructor].
  - lia.
Defined.

(** ** More on the requests *)

(** What a call of [KClassify.predict_bytes] does on a client whose
    endpoint is [endpoint]: one request, then the outcome of the
    post-processing of its answer. *)
Lemma KClassify_predict_bytes_shape
    (W : World) (image_bytes : pyobj) (threshold : Q) (top_n : Z)
    (s : state) (endpoint : string) :
  self_endpoint s = Some endpoint ->
  exists r evs,
    (forall s', self_endpoint s' = Some endpoint ->
       KClassify_predict_bytes W image_bytes threshold top_n s'
       = (r, {| self_endpoint := Some endpoint;
                trace := trace s' ++ evs |}))
    /\ posts evs = [(endpoint, [("file", image_bytes)])]
    /\ opens evs = [] /\ closes evs = [].
Proof.
  intros He.
  destruct (rbind (requests_post W endpoint [("file", image_bytes)])
                  Response_json) as [doc|e] eqn:Hdoc.
  - eexists. exists [EvPost endpoint [("file", image_bytes)]; EvDebug doc].
    split; [|repeat split].
    intros s' He'.
    rewrite (KClassify_predict_bytes_run W _ threshold top_n _ _ _ He' Hdoc).
    rewrite <- app_assoc. reflexivity.
  - exists (Err e), [EvPost endpoint [("file", image_bytes)]].
    split; [|repeat split].
    intros s' He'.
    exact (KClassify_predict_bytes_fail W _ threshold top_n _ _ _ He' Hdoc).
Qed.

(** A client constructed with any string and then asked to classify sends
    exactly one request, whether the call returns or raises: to the
    endpoint the constructor stored, which ends with ['/'], with the payload
    it was given as the one uploaded file, under the field name ["file"]. *)
Theorem KClassify_one_request_to_stored_endpoint
    (W : World) (e : string) (image_bytes : pyobj) (threshold : Q)
    (top_n : Z) (s : state) :
  exists url,
    posted (snd (bind (KClassify_init e)
                      (fun _ => KClassify_predict_bytes W image_bytes
                                  threshold top_n) s))
    = posted s ++ [(url, [("file", image_bytes)])]
    /\ self_endpoint (snd (KClassify_init e s)) = Some url
    /\ endswith url "/" = true.
Proof.
  exists (normalize e). unfold bind at 1, KClassify_init.
  rewrite FastAPIBaseModel_init_run.
  split; [|split; [reflexivity | apply normalize_endswith]].
  set (s1 := {| self_endpoint := Some (normalize e); trace := _ |}).
  destruct (KClassify_predict_bytes_shape W image_bytes threshold top_n s1
              (normalize e) eq_refl) as [r [evs [Hrun [Hposts _]]]].
  rewrite (Hrun s1 eq_refl). unfold posted, s1. simpl.
  rewrite !posts_app, Hposts. simpl. rewrite app_nil_r. reflexivity.
Qed.

(** [KClassify.predict_file] is [KClassify.predict_bytes] on the JPEG
    encoding of the image: when the image opens and encodes to [data], it
    returns or raises what [predict_bytes] does for the stream holding
    [data] with its cursor at the start, and the one request it sends
    uploads that stream. *)
Theorem KClassify_predict_file_as_predict_bytes
    (W : World) (path : string) (threshold : Q) (top_n : Z) (s : state)
    (endpoint : string) (h : image) (data : list Byte.byte) :
  self_endpoint s = Some endpoint ->
  Image_open W path = Ok h ->
  Image_save_jpeg W h = Ok data ->
  fst (KClassify_predict_file W path threshold top_n s)
  = fst (KClassify_predict_bytes W (OBytesIO data 0) threshold top_n s)
  /\ posted (snd (KClassify_predict_file W path threshold top_n s))
     = posted s ++ [(endpoint, [("file", OBytesIO data 0)])].
Proof.
  intros He Hopen Hsave.
  rewrite (KClassify_predict_file_run _ _ _ _ _ _ Hopen), Hsave.
  destruct (KClassify_predict_bytes_shape W (OBytesIO data 0) threshold top_n
              s endpoint He) as [r [evs [Hrun [Hposts _]]]].
  rewrite (Hrun s He).
  rewrite (Hrun {| self_endpoint := self_endpoint s;
                   trace := trace s ++ [EvOpen h] |} He).
  unfold posted.
  destruct r as [results|e]; simpl; rewrite !posts_app, Hposts; simpl;
    rewrite ?app_nil_r; split; reflexivity.
Qed.

Lemma KClassify_predict_file_as_predict_bytes_witness :
  fst (KClassify_predict_file mock_world "image.jpg" (1 # 2) 5
         (ready "localhost:3000/predict/"))
  = fst (KClassify_predict_bytes mock_world (OBytesIO [] 0) (1 # 2) 5
           (ready "localhost:3000/predict/"))
  /\ posted (snd (KClassify_predict_file mock_world "image.jpg" (1 # 2) 5
                    (ready "localhost:3000/predict/")))
     = posted (ready "localhost:3000/predict/")
       ++ [("localhost:3000/predict/", [("file", OBytesIO [] 0)])].
Proof.
  apply (KClassify_predict_file_as_predict_bytes mock_world "image.jpg"
           (1 # 2) 5 (ready "localhost:3000/predict/")
           "localhost:3000/predict/" 0%nat []).
  - reflexivity.
  - reflexivity.
  - reflexivity.
Defined.

Lemma KClassify_predict_file_no_image
    (W : World) (path : string) (threshold : Q) (top_n : Z) (s : state)
    (e : exn) :
  Image_open W path = Err e ->
  KClassify_predict_file W path threshold top_n s = (Err e, s).
Proof.
  intros Hopen. unfold KClassify_predict_file, PIL_open, bind, lift.
  rewrite Hopen. reflexivity.
Qed.

(** An image that cannot be opened or encoded stops [predict_file] of both
    classes before the network is touched: the exception of [Image.open] or
    [image.save] is the one raised, and no request has been sent. *)
Theorem predict_file_image_error_before_request
    (W : World) (path : string) (threshold : Q) (top_n : Z) (s : state)
    (e : exn) :
  Image_open W path = Err e
  \/ (exists h, Image_open W path = Ok h /\ Image_save_jpeg W h = Err e) ->
  fst (KClassify_predict_file W path threshold top_n s) = Err e
  /\ posted (snd (KClassify_predict_file W path threshold top_n s))
     = posted s
  /\ fst (YOLOv5_predict_file W path threshold s) = Err e
  /\ posted (snd (YOLOv5_predict_file W path threshold s)) = posted s.
Proof.
  intros [Hopen | [h [Hopen Hsave]]].
  - rewrite (KClassify_predict_file_no_image _ _ _ _ _ _ Hopen).
    rewrite YOLOv5_predict_file_run, Hopen. repeat split; reflexivity.
  - rewrite (KClassify_predict_file_run _ _ _ _ _ _ Hopen), Hsave.
    rewrite YOLOv5_predict_file_run, Hopen, Hsave.
    unfold posted. simpl. rewrite posts_app, app_nil_r.
    repeat split; reflexivity.
Qed.

Lemma predict_file_image_error_before_request_witness :
  fst (KClassify_predict_file no_image_world "image.jpg" (1 # 2) 5
         (ready "localhost:3000/predict/")) = Err ImageLoadError
  /\ posted (snd (KClassify_predict_file no_image_world "image.jpg" (1 # 2) 5
                    (ready "localhost:3000/predict/")))
     = posted (ready "localhost:3000/predict/")
  /\ fst (YOLOv5_predict_file no_image_world "image.jpg" (1 # 2)
            (ready "localhost:3000/predict/")) = Err ImageLoadError
  /\ posted (snd (YOLOv5_predict_file no_image_world "image.jpg" (1 # 2)
                    (ready "localhost:3000/predict/")))
     = posted (ready "localhost:3000/predict/").
Proof.
  apply (predict_file_image_error_before_request no_image_world "image.jpg"
           (1 # 2) 5 (ready "localhost:3000/predict/") ImageLoadError).
  left. reflexivity.
Defined.

(** An answer that cannot be used fails the call with its own exception and
    nothing is returned in its place: the exception of [response.json()]
    when the body does not decode, and otherwise the exception of reading
    the items out of the document ([KeyError] when it has no ["result"]
    entry, [TypeError] when the document or the entry is of the wrong
    kind).  The request has been sent once. *)
Theorem KClassify_unusable_answer_fails
    (W : World) (image_bytes : pyobj) (threshold : Q) (top_n : Z)
    (s : state) (endpoint : string) (resp : Response) (e : exn) :
  self_endpoint s = Some endpoint ->
  requests_post W endpoint [("file", image_bytes)] = Ok resp ->
  Response_json resp = Err e
  \/ (exists doc, Response_json resp = Ok doc /\ result_items doc = Err e) ->
  fst (KClassify_predict_bytes W image_bytes threshold top_n s) = Err e
  /\ posted (snd (KClassify_predict_bytes W image_bytes threshold top_n s))
     = posted s ++ [(endpoint, [("file", image_bytes)])].
Proof.
  intros He Hpost [Hjson | [doc [Hjson Hitems]]].
  - rewrite (KClassify_predict_bytes_fail W _ threshold top_n _ _ e He)
      by (rewrite Hpost; exact Hjson).
    unfold posted. simpl. rewrite posts_app. split; reflexivity.
  - rewrite (KClassify_predict_bytes_run W _ threshold top_n _ _ doc He)
      by (rewrite Hpost; exact Hjson).
    simpl. rewrite Hitems. unfold posted. simpl.
    rewrite !posts_app. simpl. rewrite app_nil_r. split; reflexivity.
Qed.

Lemma KClassify_unusable_answer_fails_witness :
  fst (KClassify_predict_bytes undecodable_world (OBytes []) (1 # 2) 5
         (ready "localhost:3000/predict/")) = Err DecodeError
  /\ posted (snd (KClassify_predict_bytes undecodable_world (OBytes [])
                    (1 # 2) 5 (ready "localhost:3000/predict/")))
     = posted (ready "localhost:3000/predict/")
       ++ [("localhost:3000/predict/", [("file", OBytes [])])].
Proof.
  apply (KClassify_unusable_answer_fails undecodable_world (OBytes [])
           (1 # 2) 5 (ready "localhost:3000/predict/")
           "localhost:3000/predict/"
           {| Response_json := Err DecodeError |} DecodeError).
  - reflexivity.
  - reflexivity.
  - left. reflexivity.
Defined.
